(** * Yo-mama-as-a-service: the joke generator and the secrets resolver

    A shallow embedding of [yo_mama/yo_mama_generator.py] (class
    [YoMamaGenerator]) and of [yo_mama/secrets.py] ([get_secret] and the
    three loaders), followed by the properties of the specification that
    concern them.

    Conventions of the embedding:
    - a Python [str] is a [string]; non-ASCII text is kept as its UTF-8
      bytes, and [str.lower], [str.upper], [str.capitalize] and [str.strip]
      act on the ASCII range;
    - a Python [int] is a [Z];
    - a [dict] is a [gmap], [d.get(k, v)] is [default v (d !! k)] and
      [d[k]] raises [KeyError] when [d !! k = None];
    - the module-level random generator and the text-generation service are
      the two parts of the [World] that a call reads and advances. *)

From Stdlib Require Import ZArith Lia Ascii String List Bool.
From stdpp Require Import base option list gmap strings pretty.

(* ===================================================================== *)
(** ** Python string primitives                                           *)
(* ===================================================================== *)

Module PyStr.

Definition dq : string := String (ascii_of_nat 34) EmptyString.
Definition nl : string := String (ascii_of_nat 10) EmptyString.

(** Truthiness of a [str]: only the empty string is falsy. *)
Definition truthy (s : string) : bool :=
  match s with EmptyString => false | String _ _ => true end.

(** Truthiness of an [Optional[str]]. *)
Definition truthy_opt (o : option string) : bool :=
  match o with Some s => truthy s | None => false end.

Definition is_upper (c : ascii) : bool :=
  let n := nat_of_ascii c in (65 <=? n)%nat && (n <=? 90)%nat.

Definition is_lower (c : ascii) : bool :=
  let n := nat_of_ascii c in (97 <=? n)%nat && (n <=? 122)%nat.

Definition lower_char (c : ascii) : ascii :=
  if is_upper c then ascii_of_nat (nat_of_ascii c + 32) else c.

Definition upper_char (c : ascii) : ascii :=
  if is_lower c then ascii_of_nat (nat_of_ascii c - 32) else c.

Fixpoint map_chars (f : ascii -> ascii) (s : string) : string :=
  match s with
  | EmptyString => EmptyString
  | String c s' => String (f c) (map_chars f s')
  end.

(** [s.lower()] and [s.upper()]. *)
Definition lower : string -> string := map_chars lower_char.
Definition upper : string -> string := map_chars upper_char.

(** [s.capitalize()]: first character upper-cased, the rest lower-cased. *)
Definition capitalize (s : string) : string :=
  match s with
  | EmptyString => EmptyString
  | String c s' => String (upper_char c) (lower s')
  end.

(** [s.startswith(p)]. *)
Fixpoint startswith (s p : string) {struct p} : bool :=
  match p, s with
  | EmptyString, _ => true
  | String _ _, EmptyString => false
  | String a p', String b s' => if ascii_dec a b then startswith s' p' else false
  end.

(** [pat in s], the substring test. *)
Fixpoint contains (pat s : string) : bool :=
  startswith s pat ||
  match s with
  | EmptyString => false
  | String _ s' => contains pat s'
  end.

(** [s[n:]] for [n >= 0]. *)
Fixpoint drop_chars (n : nat) (s : string) : string :=
  match n, s with
  | O, _ => s
  | S n', String _ s' => drop_chars n' s'
  | S _, EmptyString => EmptyString
  end.

Definition is_space (c : ascii) : bool :=
  let n := nat_of_ascii c in
  ((9 <=? n)%nat && (n <=? 13)%nat) || ((28 <=? n)%nat && (n <=? 32)%nat).

Fixpoint lstrip (s : string) : string :=
  match s with
  | String c s' => if is_space c then lstrip s' else s
  | EmptyString => EmptyString
  end.

Fixpoint rstrip (s : string) : string :=
  match s with
  | EmptyString => EmptyString
  | String c s' =>
      match rstrip s' with
      | EmptyString => if is_space c then EmptyString else String c EmptyString
      | r => String c r
      end
  end.

(** [s.strip()]. *)
Definition strip (s : string) : string := rstrip (lstrip s).

(** [str(n)] for an [int], as an f-string renders it. *)
Definition str_of_int (n : Z) : string := pretty n.

End PyStr.

Import PyStr.

(* ===================================================================== *)
(** ** Exceptions, the world, and the monad of a call                     *)
(* ===================================================================== *)

(** The exceptions the modelled code can raise by itself. *)
Inductive exn : Type :=
| KeyError (key : Z)
| IndexError.

Inductive result (A : Type) : Type :=
| Ok (a : A)
| Raised (e : exn).
Arguments Ok {A} a.
Arguments Raised {A} e.

(** What one call of [client.models.generate_content] does: it returns a
    response, whose [text] may be [None], or it raises an exception whose
    [str(e)] is [description]. *)
Inductive Outcome : Type :=
| Response (text : option string)
| Failure (description : string).

(** The state a call can observe and change: the raw draws of the shared
    random generator with the number already consumed, and the service
    with the requests sent to it so far (the [k]-th call is answered by
    [gemini k]). *)
Record World : Type := mkWorld {
  entropy : nat -> nat;
  drawn : nat;
  gemini : nat -> string -> Outcome;
  requests : list string
}.

Definition M (A : Type) : Type := World -> result A * World.

Definition ret {A} (a : A) : M A := fun w => (Ok a, w).
Definition raise {A} (e : exn) : M A := fun w => (Raised e, w).
Definition bind {A B} (m : M A) (k : A -> M B) : M B :=
  fun w => match m w with
           | (Ok a, w') => k a w'
           | (Raised e, w') => (Raised e, w')
           end.
Definition lift {A} (r : result A) : M A := fun w => (r, w).

Notation "'let*' x ':=' m 'in' k" := (bind m (fun x => k))
  (at level 10, x pattern, m at level 100, k at level 200).

(** [random._randbelow(n)] for [n > 0]: the next raw draw, reduced into
    [0, n). *)
Definition consume_draw (w : World) : World :=
  {| entropy := entropy w; drawn := S (drawn w);
     gemini := gemini w; requests := requests w |}.

Definition randbelow (n : nat) : M nat :=
  fun w => (Ok (entropy w (drawn w) mod n), consume_draw w).

(** [random.choice(seq)]: [IndexError] on an empty sequence, otherwise
    [seq[_randbelow(len(seq))]]. *)
Definition random_choice {A} (seq : list A) : M A :=
  match seq with
  | [] => raise IndexError
  | _ :: _ =>
      let* i := randbelow (length seq) in
      match seq !! i with
      | Some x => ret x
      | None => raise IndexError
      end
  end.

(** [random.randint(a, b)] for [a <= b]: [a + _randbelow(b - a + 1)]. *)
Definition randint (a b : Z) : M Z :=
  let* i := randbelow (Z.to_nat (b - a + 1)) in
  ret (a + Z.of_nat i)%Z.

(** [self.client.models.generate_content(model=..., contents=prompt)]:
    the request is recorded and the service's answer is handed back to the
    [try] block. *)
Definition record_request (prompt : string) (w : World) : World :=
  {| entropy := entropy w; drawn := drawn w;
     gemini := gemini w; requests := requests w ++ [prompt] |}.

Definition generate_content (prompt : string) : M Outcome :=
  fun w => (Ok (gemini w (length (requests w)) prompt), record_request prompt w).

(* ===================================================================== *)
(** ** YoMamaGenerator                                                    *)
(* ===================================================================== *)

(** [YoMamaGenerator.FLAVORS]. *)
Definition FLAVORS : list string :=
  [ "classic"; "cybersecurity"; "tech"; "linux"; "general"; "gaming";
    "programming"; "networking"; "cloud"; "devops"; "database"; "radio";
    "thegame" ].

(** [YoMamaGenerator.list_flavors()]: a copy of [FLAVORS]. *)
Definition list_flavors : list string := FLAVORS.

(** The tables of [_build_prompt]. *)
Definition flavor_contexts : gmap string string :=
  list_to_map [
    ("classic", "CLASSIC traditional Yo Mama jokes - use timeless formats like " +:+ dq +:+ "so fat" +:+ dq +:+ ", " +:+ dq +:+ "so ugly" +:+ dq +:+ ", " +:+ dq +:+ "so old" +:+ dq +:+ ", " +:+ dq +:+ "so stupid" +:+ dq +:+ ", " +:+ dq +:+ "so poor" +:+ dq +:+ ", " +:+ dq +:+ "so hairy" +:+ dq +:+ ", " +:+ dq +:+ "so short" +:+ dq +:+ ", " +:+ dq +:+ "so tall" +:+ dq +:+ ". Examples: " +:+ dq +:+ "Yo mama so fat when she sits around the house, she sits AROUND the house" +:+ dq +:+ ", " +:+ dq +:+ "Yo mama so fat when she got on the scale it said 'I need your weight not your phone number'" +:+ dq +:+ ", " +:+ dq +:+ "Yo mama so fat I took a picture of her last Christmas and it's still printing" +:+ dq +:+ ", " +:+ dq +:+ "Yo mama like a race car she burns 4 rubbers a day" +:+ dq +:+ ". Keep it traditional, punchy, and non-technical.");
    ("cybersecurity", "cybersecurity, hacking, vulnerabilities, security tools like CrowdStrike, Shodan, Suricata, Wazuh, firewalls, encryption, CVEs");
    ("tech", "technology, computers, software, hardware, operating systems, IT support, tech companies");
    ("linux", "Linux, Unix, open source, command line, distros, kernel, bash, system administration, package managers");
    ("general", "everyday technology, smartphones, social media, internet, basic computing");
    ("gaming", "video games, gaming hardware, esports, game development, streaming, lag, FPS");
    ("programming", "coding, programming languages, APIs, debugging, git, IDEs, software development");
    ("networking", "networks, routers, switches, protocols, TCP/IP, DNS, load balancing, bandwidth");
    ("cloud", "cloud computing, AWS, Azure, GCP, containers, Kubernetes, serverless, microservices");
    ("devops", "DevOps, CI/CD, Docker, Jenkins, automation, infrastructure as code, monitoring");
    ("database", "databases, SQL, NoSQL, queries, indexes, normalization, database administrators");
    ("radio", "amateur radio, ham radio, frequencies, bands (HF/VHF/UHF), antennas, SWR, propagation, callsigns, morse code, repeaters, QSO, QSL cards, ARRL, FCC licenses (Technician/General/Extra), rigs, transceivers, DX, contestin");
    ("thegame", "The Game - a mind game where thinking about The Game means you lose. Create creative, funny ways to tell them they just lost The Game. Be clever and unexpected. Reference memes, internet culture, or tech concepts if appropriate.")
  ].

Definition meanness_guide : gmap Z string :=
  list_to_map [
    (1, "extremely gentle and wholesome, just playful teasing");
    (2, "mild and friendly, very light roasting");
    (3, "gentle but with a slight edge");
    (4, "moderately playful with some bite");
    (5, "balanced roasting, noticeable but not harsh");
    (6, "firm roasting with clear jabs");
    (7, "harsh and pointed, definitely stinging");
    (8, "brutal and savage, no holding back");
    (9, "devastatingly mean, almost cruel");
    (10, "absolutely merciless and nuclear-level savage")
  ]%Z.

Definition nerdiness_guide : gmap Z string :=
  list_to_map [
    (1, "use only basic everyday terms anyone would understand");
    (2, "use simple tech terms most people know");
    (3, "use common tech concepts");
    (4, "use moderately technical terms");
    (5, "use technical jargon that tech-savvy people know");
    (6, "use specialized technical terms");
    (7, "use insider technical references and acronyms");
    (8, "use advanced technical concepts and tools");
    (9, "use highly specialized technical knowledge");
    (10, "use extremely obscure technical references only experts would get")
  ]%Z.

(** [guide[level]]: a subscript on a [dict], raising [KeyError]. *)
Definition subscript (guide : gmap Z string) (level : Z) : result string :=
  match guide !! level with
  | Some phrase => Ok phrase
  | None => Raised (KeyError level)
  end.

(** The f-string of [_build_prompt], with its eight fields filled in. *)
Definition prompt_template
    (flavor flavor_context : string) (meanness : Z) (meanness_phrase : string)
    (nerdiness : Z) (nerdiness_phrase : string) (target : string) : string :=
  "Generate a single " +:+ dq +:+ "Yo Mama" +:+ dq +:+ " style joke with these specifications:" +:+ nl +:+ nl +:+ "THEME/FLAVOR: "
   +:+ flavor
   +:+ " - Focus on "
   +:+ flavor_context
   +:+ nl +:+ nl +:+ "MEANNESS LEVEL: "
   +:+ str_of_int meanness
   +:+ "/10 - "
   +:+ meanness_phrase
   +:+ nl +:+ nl +:+ "NERDINESS LEVEL: "
   +:+ str_of_int nerdiness
   +:+ "/10 - "
   +:+ nerdiness_phrase
   +:+ nl +:+ nl +:+ "TARGET: Use " +:+ dq
   +:+ target
   +:+ dq +:+ " instead of " +:+ dq +:+ "yo mama" +:+ dq +:+ nl +:+ nl +:+ "REQUIREMENTS:" +:+ nl +:+ "- Start with " +:+ dq
   +:+ capitalize target
   +:+ " so [adjective]..." +:+ dq +:+ nl +:+ "- The joke must be related to "
   +:+ flavor
   +:+ nl +:+ "- Match the specified meanness and nerdiness levels precisely" +:+ nl +:+ "- Be creative and clever" +:+ nl +:+ "- Keep it concise (1-2 sentences max)" +:+ nl +:+ "- Make it funny and original" +:+ nl +:+ nl +:+ "EXAMPLES for reference (adjust based on parameters):" +:+ nl +:+ nl
   +:+ flavor
   +:+ " examples:" +:+ nl +:+ "- Yo mama so insecure, even CrowdStrike put her in Reduced Functionality Mode." +:+ nl +:+ "- Yo mama so exposed, Shodan sends her vulnerability reports." +:+ nl +:+ "- Yo mama so slow, when she tried to catch up on her emails, Outlook timed her out." +:+ nl +:+ nl +:+ "Generate ONE joke now, matching all specifications:".

(** [YoMamaGenerator._build_prompt]. The two guide subscripts are
    evaluated while the f-string is formatted, meanness first. *)
Definition _build_prompt
    (flavor : string) (meanness nerdiness : Z) (target_name : option string)
    : result string :=
  let flavor_context := default "general technology" (flavor_contexts !! flavor) in
  let target :=
    match target_name with
    | Some t => if truthy t then t else "yo mama"
    | None => "yo mama"
    end in
  match subscript meanness_guide meanness with
  | Raised e => Raised e
  | Ok meanness_phrase =>
      match subscript nerdiness_guide nerdiness with
      | Raised e => Raised e
      | Ok nerdiness_phrase =>
          Ok (prompt_template flavor flavor_context meanness meanness_phrase
                              nerdiness nerdiness_phrase target)
      end
  end.

(** [YoMamaGenerator._get_fallback_joke]. *)
Definition fallbacks : gmap string string :=
  list_to_map [
    ("cybersecurity", "Yo mama so insecure, even CrowdStrike flagged her as a vulnerability.");
    ("tech", "Yo mama so slow, buffering gives up and goes home.");
    ("linux", "Yo mama so bloated, even apt-get couldn't remove her dependencies.");
    ("general", "Yo mama so old, her password is literally 'password'.");
    ("gaming", "Yo mama so laggy, ping timeout became her nickname.");
    ("programming", "Yo mama so buggy, Stack Overflow created a tag just for her.");
    ("radio", "Yo mama so noisy, she causes interference on all bands at once - 73!");
    ("thegame", "Congratulations! You just lost The Game. And so did everyone reading this. Sorry not sorry. 🎮💀")
  ].

Definition generic_fallback : string :=
  "Yo mama so outdated, even legacy systems moved on.".

Definition _get_fallback_joke (flavor : string) : string :=
  default generic_fallback (fallbacks !! flavor).

(** The list [rate_limit_jokes] of the exception handler. *)
Definition rate_limit_jokes : list string :=
  [ "Yo mama hitting this API so hard, even Google told her to slow down! 🚦 (Rate limit exceeded, try again in a minute)";
    "Yo mama's requests so thicc, the API said 'I need a break!' 💤 (Quota exceeded, please try again later)";
    "Yo mama making so many requests, the API filed a restraining order! 🚨 (Rate limit hit, chill for a sec)";
    "Yo mama so demanding, she exceeded her quota faster than a script kiddie with a new API key! ⚠️ (Try again in 60 seconds)";
    "Yo mama hit that rate limit so fast, even the API was like 'Damn girl, pace yourself!' 🔥 (Quota exceeded, wait a minute)";
    "Yo mama's API calls so excessive, Google Gemini ghosted her! 👻 (Rate limit reached, try again soon)" ].

(** [generate_joke], lines 88-95: the theme that the call works with. *)
Definition resolve_flavor (flavor : option string) : M string :=
  let flavor :=
    match flavor with
    | Some f =>
        if truthy f && negb (bool_decide (lower f ∈ FLAVORS)) then None else Some f
    | None => None
    end in
  match flavor with
  | None => random_choice FLAVORS
  | Some f => ret (lower f)
  end.

(** [generate_joke], lines 97-98: [max(1, min(10, level))]. *)
Definition clamp_level (level : Z) : Z := Z.max 1 (Z.min 10 level).

(** [generate_joke], lines 88-101: everything up to the built prompt (the
    operation the specification calls compose). The
    resolved theme is returned with the prompt, as the exception handler
    uses it. *)
Definition compose_request
    (flavor : option string) (meanness nerdiness : Z) (target_name : option string)
    : M (string * string) :=
  let* flavor := resolve_flavor flavor in
  let meanness := clamp_level meanness in
  let nerdiness := clamp_level nerdiness in
  let* prompt := lift (_build_prompt flavor meanness nerdiness target_name) in
  ret (flavor, prompt).

(** The test of the handler on [str(e)], line 119. *)
Definition is_rate_limit (error_msg : string) : bool :=
  contains "429" error_msg
  || contains "quota" (lower error_msg)
  || contains "rate limit" (lower error_msg).

(** The body of [except Exception as e], lines 114-131. *)
Definition on_exception (error_msg flavor : string) : M string :=
  if is_rate_limit error_msg
  then random_choice rate_limit_jokes
  else ret (_get_fallback_joke flavor).

(** [str(e)] of the [AttributeError] that [response.text.strip()] raises
    inside the [try] block when [response.text] is [None]. *)
Definition none_strip_error : string :=
  "'NoneType' object has no attribute 'strip'".

(** [YoMamaGenerator.generate_joke]. *)
Definition generate_joke
    (flavor : option string) (meanness nerdiness : Z) (target_name : option string)
    : M string :=
  let* (flavor, prompt) := compose_request flavor meanness nerdiness target_name in
  let* outcome := generate_content prompt in
  match outcome with
  | Response (Some text) => ret (strip text)
  | Response None => on_exception none_strip_error flavor
  | Failure error_msg => on_exception error_msg flavor
  end.

(** The loop of [generate_batch]: an item that raises is logged and
    skipped, the others are appended in order. *)
Fixpoint batch_loop (item : M string) (n : nat) (jokes : list string) (w : World)
    : list string * World :=
  match n with
  | O => (jokes, w)
  | S n' =>
      match item w with
      | (Ok joke, w') => batch_loop item n' (jokes ++ [joke]) w'
      | (Raised _, w') => batch_loop item n' jokes w'
      end
  end.

(** [YoMamaGenerator.generate_batch]; [range(count)] is empty for a
    [count] below 1. *)
Definition generate_batch
    (count : Z) (flavor : option string) (meanness nerdiness : Z)
    (target_name : option string) : M (list string) :=
  fun w =>
    let '(jokes, w') :=
      batch_loop (generate_joke flavor meanness nerdiness target_name)
                 (Z.to_nat count) [] w in
    (Ok jokes, w').

(** The three draws of [random_joke], in the order of the source. *)
Definition random_joke_args : M (string * Z * Z) :=
  let* flavor := random_choice FLAVORS in
  let* meanness := randint 3 7 in
  let* nerdiness := randint 3 7 in
  ret (flavor, meanness, nerdiness).

(** [YoMamaGenerator.random_joke]. *)
Definition random_joke : M string :=
  let* (flavor, meanness, nerdiness) := random_joke_args in
  generate_joke (Some flavor) meanness nerdiness None.

(* ===================================================================== *)
(** ** secrets.py                                                         *)
(* ===================================================================== *)

Module Secrets.

(** An optional client library: [import] either succeeds or raises
    [ImportError]. *)
Inductive Package (A : Type) : Type :=
| Installed (client : A)
| NotInstalled.
Arguments Installed {A} client.
Arguments NotInstalled {A}.

(** One value of [secrets_response.secrets]: a dict that may hold the
    keys ['computed'] and ['raw']. *)
Record DopplerValue : Type := mkDopplerValue {
  computed : option string;
  raw : option string
}.

(** What the Doppler SDK does for a token, project and config. *)
Inductive DopplerReply : Type :=
| SecretsListed (secrets : list (string * DopplerValue))
| NoSecretsAttribute
| ListRaised
| ConfigureRaised.

(** What a loader hands on to [get_secret]: [json.loads] of an AWS
    secret string, or the ['data']['data'] of a Vault read. With the
    documented shape of a secret it is a JSON object (a dict, whose values
    are modelled as strings); otherwise it is an array (of which only the
    string elements matter to a membership test), a string, or a scalar
    (a number, a boolean or null). *)
Inductive Payload : Type :=
| Object (fields : gmap string string)
| Array (strings : list string)
| Text (text : string)
| Scalar.

(** An authenticated-or-not Vault client; a read that raises is [None]. *)
Record VaultClient : Type := mkVaultClient {
  is_authenticated : bool;
  read_secret_version : string -> option Payload
}.

(** The surroundings of a lookup: [os.environ] and the three optional
    backends. A backend call that raises any exception is [None]. *)
Record Env : Type := mkEnv {
  environ : gmap string string;
  dopplersdk : Package (string -> string -> string -> DopplerReply);
  boto3 : Package (string -> option Payload);
  hvac : Package (string -> string -> option VaultClient)
}.

(** [os.getenv(name)] and [os.getenv(name, fallback)]. *)
Definition getenv (env : Env) (name : string) : option string :=
  environ env !! name.
Definition getenv_or (env : Env) (name fallback : string) : string :=
  default fallback (environ env !! name).

(** [load_secrets_from_aws]: what [json.loads] gave is returned as it
    is; the empty dict stands for every error. *)
Definition load_secrets_from_aws (env : Env) (secret_name : string) : Payload :=
  match boto3 env with
  | NotInstalled => Object ∅
  | Installed get_secret_value =>
      match get_secret_value secret_name with
      | Some secrets => secrets
      | None => Object ∅
      end
  end.

(** [load_secrets_from_vault]. *)
Definition load_secrets_from_vault (env : Env) (secret_path : string) : Payload :=
  match hvac env with
  | NotInstalled => Object ∅
  | Installed new_client =>
      let vault_url := getenv env "SECRETS_VAULT_URL" in
      let vault_token := getenv env "SECRETS_VAULT_TOKEN" in
      match vault_url, vault_token with
      | Some url, Some token =>
          if negb (truthy url) || negb (truthy token) then Object ∅
          else
            match new_client url token with
            | None => Object ∅
            | Some client =>
                if negb (is_authenticated client) then Object ∅
                else default (Object ∅) (read_secret_version client secret_path)
            end
      | _, _ => Object ∅
      end
  end.

(** [secret_value.get('computed', secret_value.get('raw', ''))]. *)
Definition doppler_value (v : DopplerValue) : string :=
  match computed v with
  | Some c => c
  | None => default "" (raw v)
  end.

(** One round of the loop over [secrets_response.secrets.items()]. *)
Definition doppler_collect (secret_name : option string)
    (secrets_dict : gmap string string) (item : string * DopplerValue)
    : gmap string string :=
  let '(secret_key, secret_value) := item in
  match secret_name with
  | Some name =>
      if truthy name then
        if startswith (upper secret_key) (upper name) then
          let key_suffix := lower (drop_chars (String.length name + 1) secret_key) in
          <[key_suffix := doppler_value secret_value]> secrets_dict
        else secrets_dict
      else <[secret_key := doppler_value secret_value]> secrets_dict
  | None => <[secret_key := doppler_value secret_value]> secrets_dict
  end.

(** [load_secrets_from_doppler]. *)
Definition load_secrets_from_doppler (env : Env) (secret_name : option string)
    : gmap string string :=
  match dopplersdk env with
  | NotInstalled => ∅
  | Installed sdk =>
      match getenv env "DOPPLER_TOKEN" with
      | None => ∅
      | Some doppler_token =>
          if negb (truthy doppler_token) then ∅
          else
            let doppler_project := getenv_or env "DOPPLER_PROJECT" "yo-mama-bot" in
            let doppler_config := getenv_or env "DOPPLER_CONFIG" "dev" in
            match sdk doppler_token doppler_project doppler_config with
            | SecretsListed secrets =>
                fold_left (doppler_collect secret_name) secrets ∅
            | NoSecretsAttribute => ∅
            | ListRaised => ∅
            | ConfigureRaised => ∅
            end
      end
  end.

(** [if k in secrets: value = secrets[k]; if value: return value]: the
    value to return, if this step returns. *)
Definition found (secrets : gmap string string) (k : string) : option string :=
  match secrets !! k with
  | Some value => if truthy value then Some value else None
  | None => None
  end.

(** Sequencing of two steps, the first of which may return. *)
Definition or_next (step : option string) (rest : option string) : option string :=
  match step with
  | Some value => Some value
  | None => rest
  end.
Infix "<|>" := or_next (at level 61, left associativity).

(** The environment variable name that [get_secret] builds. *)
Definition env_key_of (key : string) (platform : option string) : string :=
  match platform with
  | Some p => if truthy p then upper p +:+ "_" +:+ upper key else upper key
  | None => upper key
  end.

(** Priority 1 of [get_secret]. *)
Definition from_doppler (env : Env) (key env_key : string)
    (doppler_prefix : option string) : option string :=
  if truthy_opt (getenv env "DOPPLER_TOKEN") then
    (if truthy_opt doppler_prefix
     then found (load_secrets_from_doppler env doppler_prefix) (lower key)
     else None)
    <|> found (load_secrets_from_doppler env None) env_key
  else None.

(** How a part of the body of [get_secret] ends: with [return value],
    by going on to the next statement, or with a [TypeError]. *)
Inductive Attempt : Type :=
| Returned (value : string)
| Passed
| RaisedTypeError.

(** A part that cannot raise. *)
Definition attempt (step : option string) : Attempt :=
  match step with
  | Some value => Returned value
  | None => Passed
  end.

(** [if k in secrets: value = secrets[k]; if value: return value] on a
    loaded payload. On a dict it is [found]. An array or a string that
    contains [k] passes the test and cannot be subscripted with it, and a
    scalar cannot be searched at all: both raise [TypeError]. *)
Definition found_in (secrets : Payload) (k : string) : Attempt :=
  match secrets with
  | Object fields => attempt (found fields k)
  | Array strings => if bool_decide (k ∈ strings) then RaisedTypeError else Passed
  | Text text => if contains k text then RaisedTypeError else Passed
  | Scalar => RaisedTypeError
  end.

(** Sequencing of two parts: the second runs when the first went on. *)
Definition then_next (step rest : Attempt) : Attempt :=
  match step with
  | Passed => rest
  | Returned value => Returned value
  | RaisedTypeError => RaisedTypeError
  end.
Infix "<||>" := then_next (at level 61, left associativity).

(** Priority 2. *)
Definition from_aws (env : Env) (key env_key : string)
    (aws_secret_name : option string) : Attempt :=
  let secret_manager := lower (getenv_or env "SECRETS_MANAGER" "none") in
  match aws_secret_name with
  | Some name =>
      if String.eqb secret_manager "aws" && truthy name then
        let aws_secrets := load_secrets_from_aws env name in
        found_in aws_secrets (lower key) <||> found_in aws_secrets (lower env_key)
      else Passed
  | None => Passed
  end.

(** Priority 3. *)
Definition from_vault (env : Env) (key env_key : string)
    (vault_secret_path : option string) : Attempt :=
  let secret_manager := lower (getenv_or env "SECRETS_MANAGER" "none") in
  match vault_secret_path with
  | Some path =>
      if String.eqb secret_manager "vault" && truthy path then
        let vault_secrets := load_secrets_from_vault env path in
        found_in vault_secrets (lower key) <||> found_in vault_secrets (lower env_key)
      else Passed
  | None => Passed
  end.

(** Priority 4. *)
Definition from_environment (env : Env) (env_key : string) : option string :=
  match getenv env env_key with
  | Some env_value => if truthy env_value then Some env_value else None
  | None => None
  end.

(** [get_secret]. The result is an [Optional[str]]: the outer [option]
    is Python's [None]. The body runs inside [try]: when the four parts
    all go on, the default is returned (lines 261-267), and when a part
    raises, the clause [except Exception] returns the default as well
    (lines 269-271), without the parts after it being run. *)
Definition get_secret (env : Env) (key : string) (platform default : option string)
    (aws_secret_name vault_secret_path doppler_prefix : option string)
    : option string :=
  let env_key := env_key_of key platform in
  match attempt (from_doppler env key env_key doppler_prefix)
        <||> from_aws env key env_key aws_secret_name
        <||> from_vault env key env_key vault_secret_path
        <||> attempt (from_environment env env_key) with
  | Returned value => Some value
  | Passed => default
  | RaisedTypeError => default
  end.

(** The first non-empty one of a list of offers, else the default. *)
Fixpoint first_non_empty (offers : list (option string)) (default : option string)
    : option string :=
  match offers with
  | [] => default
  | Some value :: rest =>
      if truthy value then Some value else first_non_empty rest default
  | None :: rest => first_non_empty rest default
  end.

(** A backend that cannot be used: its client library is missing, or
    every call to it fails. *)
Definition doppler_unavailable (env : Env) : Prop :=
  dopplersdk env = NotInstalled
  \/ exists sdk, dopplersdk env = Installed sdk
       /\ forall token project config secrets,
            sdk token project config <> SecretsListed secrets.

Definition aws_unavailable (env : Env) : Prop :=
  boto3 env = NotInstalled
  \/ exists get_secret_value, boto3 env = Installed get_secret_value
       /\ forall name, get_secret_value name = None.

Definition vault_unavailable (env : Env) : Prop :=
  hvac env = NotInstalled
  \/ exists new_client, hvac env = Installed new_client
       /\ forall url token,
            match new_client url token with
            | None => True
            | Some client =>
                is_authenticated client = false
                \/ forall path, read_secret_version client path = None
            end.

(** Only the environment holds the key; no backend library is there. *)
Definition local_only : Env :=
  {| environ := {[ "GEMINI_API_KEY" := "local-key" ]};
     dopplersdk := NotInstalled; boto3 := NotInstalled; hvac := NotInstalled |}.

(** Doppler is enabled and holds the key, and so does the environment. *)
Definition hosted_and_local : Env :=
  {| environ := list_to_map [ ("DOPPLER_TOKEN", "dp.st.dev.token");
                              ("GEMINI_API_KEY", "local-key") ];
     dopplersdk := Installed (fun _ _ _ =>
       SecretsListed [ ("GEMINI_API_KEY",
                        {| computed := Some "hosted-key"; raw := Some "hosted-raw" |}) ]);
     boto3 := NotInstalled; hvac := NotInstalled |}.

(** Doppler is enabled but its listing raises; nothing else is set. *)
Definition hosted_broken : Env :=
  {| environ := {[ "DOPPLER_TOKEN" := "dp.st.dev.token" ]};
     dopplersdk := Installed (fun _ _ _ => ListRaised);
     boto3 := NotInstalled; hvac := NotInstalled |}.

(** AWS is selected and its secret string is the JSON number 123; the
    environment holds the key. *)
Definition numeric_aws_secret : Env :=
  {| environ := list_to_map [ ("SECRETS_MANAGER", "aws");
                              ("GEMINI_API_KEY", "local-key") ];
     dopplersdk := NotInstalled;
     boto3 := Installed (fun _ => Some Scalar);
     hvac := NotInstalled |}.

(** AWS is selected and holds the key, and so does the environment. *)
Definition aws_and_local : Env :=
  {| environ := list_to_map [ ("SECRETS_MANAGER", "AWS");
                              ("GEMINI_API_KEY", "local-key") ];
     dopplersdk := NotInstalled;
     boto3 := Installed (fun _ =>
       Some (Object {[ "gemini_api_key" := "aws-key" ]}));
     hvac := NotInstalled |}.

(** Vault is selected, configured and authenticated, and holds the key,
    and so does the environment. *)
Definition vault_and_local : Env :=
  {| environ := list_to_map [ ("SECRETS_MANAGER", "vault");
                              ("SECRETS_VAULT_URL", "https://vault.example");
                              ("SECRETS_VAULT_TOKEN", "s.token");
                              ("GEMINI_API_KEY", "local-key") ];
     dopplersdk := NotInstalled;
     boto3 := NotInstalled;
     hvac := Installed (fun _ _ =>
       Some {| is_authenticated := true;
               read_secret_version := fun _ =>
                 Some (Object {[ "gemini_api_key" := "vault-key" ]}) |}) |}.

(** Doppler, AWS and the environment all hold the key. *)
Definition hosted_aws_and_local : Env :=
  {| environ := list_to_map [ ("DOPPLER_TOKEN", "dp.st.dev.token");
                              ("SECRETS_MANAGER", "aws");
                              ("GEMINI_API_KEY", "local-key") ];
     dopplersdk := Installed (fun _ _ _ =>
       SecretsListed [ ("GEMINI_API_KEY",
                        {| computed := Some "hosted-key"; raw := None |}) ]);
     boto3 := Installed (fun _ =>
       Some (Object {[ "gemini_api_key" := "aws-key" ]}));
     hvac := NotInstalled |}.

End Secrets.

(* ===================================================================== *)
(** ** Vocabulary of the properties                                       *)
(* ===================================================================== *)

(** [pat] occurs in [s] up to letter case: some substring of [s] has the
    same lower-casing as [pat]. *)
Definition occurs_nocase (pat s : string) : Prop :=
  exists a b c, s = a +:+ b +:+ c /\ lower b = lower pat.

(** A failure description that marks throttling, in the words of the
    specification: it contains "429", or "quota" or "rate limit" in any
    letter case. *)
Definition throttling_description (msg : string) : Prop :=
  (exists a c, msg = a +:+ "429" +:+ c)
  \/ occurs_nocase "quota" msg
  \/ occurs_nocase "rate limit" msg.

(** Drawing does not touch the service side of the world. *)
Definition same_service (w w' : World) : Prop :=
  gemini w' = gemini w /\ requests w' = requests w.

(** A theme input is recognised when it is a string whose lower-casing is
    one of [FLAVORS]. *)
Definition recognised (flavor : option string) : Prop :=
  exists f, flavor = Some f /\ lower f ∈ FLAVORS.

(** C4, as the specification words it: a theme string that is not a
    member of [FLAVORS] is dropped and a random member takes its place. *)
Definition replaced_by_random_theme (f : string) (w : World) : Prop :=
  resolve_flavor (Some f) w = random_choice FLAVORS w.

(** The text of the request that a call builds in world [w]. *)
Definition request_text (flavor : option string) (meanness nerdiness : Z)
    (target_name : option string) (w : World) : result string :=
  match fst (compose_request flavor meanness nerdiness target_name w) with
  | Ok (_, prompt) => Ok prompt
  | Raised e => Raised e
  end.

(** The world after a call has built its request. *)
Definition after_request (flavor : option string) (meanness nerdiness : Z)
    (target_name : option string) (w : World) : World :=
  snd (compose_request flavor meanness nerdiness target_name w).

(** The strings the exception handler can return. *)
Definition canned_joke (joke : string) : Prop :=
  joke ∈ rate_limit_jokes
  \/ joke = generic_fallback
  \/ exists fl, fallbacks !! fl = Some joke.

(** Every call of the service raises. *)
Definition always_fails (w : World) : Prop :=
  forall k prompt, exists msg, gemini w k prompt = Failure msg.

(** The world of the repository's own test: every call raises
    "API Error: Rate limit exceeded (429)". *)
Definition rate_limited_world : World :=
  {| entropy := fun i => i; drawn := 0;
     gemini := fun _ _ => Failure "API Error: Rate limit exceeded (429)";
     requests := [] |}.

Definition unreachable_world : World :=
  {| entropy := fun i => i; drawn := 0;
     gemini := fun _ _ => Failure "Connection refused";
     requests := [] |}.

(* ===================================================================== *)
(** ** Vocabulary of the further properties                               *)
(* ===================================================================== *)

(** The answer of the service sends the handler to the rate-limit jokes. *)
Definition throttled (outcome : Outcome) : bool :=
  match outcome with
  | Failure error_msg => is_rate_limit error_msg
  | Response _ => false
  end.

(** The assertion of the repository's test [test_api_error_handling] on
    the joke returned: ["rate limit" in joke_lower or "quota" in joke_lower]. *)
Definition mentions_throttling (joke : string) : bool :=
  contains "rate limit" (lower joke) || contains "quota" (lower joke).

(** The name the prompt uses for the subject: line 189 of
    [_build_prompt], [target_name if target_name else "yo mama"]. *)
Definition subject_of (target_name : option string) : string :=
  match target_name with
  | Some t => if truthy t then t else "yo mama"
  | None => "yo mama"
  end.

(* ===================================================================== *)
(** ** secrets.py: the other entry points                                 *)
(* ===================================================================== *)

Module Accessors.
Import Secrets.

(** [get_secrets_for_platform]: a dict with one entry per requested key;
    a value of the dict may be Python's [None]. *)
Definition get_secrets_for_platform (env : Env) (platform : string)
    (keys : list string) (aws_secret_name vault_secret_path : option string)
    : gmap string (option string) :=
  fold_left
    (fun result key =>
       <[key := get_secret env key (Some platform) None
                           aws_secret_name vault_secret_path
                           (Some (upper platform))]> result)
    keys ∅.

(** [secrets.get(k, default)] on a loaded dict. *)
Definition dict_get (secrets : gmap string string) (k : string)
    (default : option string) : option string :=
  match secrets !! k with
  | Some value => Some value
  | None => default
  end.

(** [get_doppler_secret]. *)
Definition get_doppler_secret (env : Env) (key : string) (default : option string)
    : option string :=
  dict_get (load_secrets_from_doppler env None) (upper key) default.

(** What a getter on a loaded payload does: it returns a value, or the
    [.get] of a payload that is not a dict raises [AttributeError], which
    nothing catches. *)
Inductive Got : Type :=
| Value (v : option string)
| RaisedAttributeError.

(** [secrets.get(k, default)] on a loaded payload. *)
Definition payload_get (secrets : Payload) (k : string)
    (default : option string) : Got :=
  match secrets with
  | Object fields => Value (dict_get fields k default)
  | Array _ => RaisedAttributeError
  | Text _ => RaisedAttributeError
  | Scalar => RaisedAttributeError
  end.

(** [get_aws_secret]. *)
Definition get_aws_secret (env : Env) (secret_name key : string)
    (default : option string) : Got :=
  payload_get (load_secrets_from_aws env secret_name) (lower key) default.

(** [get_vault_secret]. *)
Definition get_vault_secret (env : Env) (secret_path key : string)
    (default : option string) : Got :=
  payload_get (load_secrets_from_vault env secret_path) (lower key) default.

(** The same surroundings with another Doppler, AWS or Vault backend. *)
Definition with_backends (env : Env)
    (d : Package (string -> string -> string -> DopplerReply))
    (a : Package (string -> option Payload))
    (v : Package (string -> string -> option VaultClient)) : Env :=
  {| environ := environ env; dopplersdk := d; boto3 := a; hvac := v |}.

(** The listing of the Doppler SDK as the loader reads it, when there is
    one: Doppler is installed, the token is set and the call succeeds. *)
Definition doppler_listing (env : Env) : option (list (string * DopplerValue)) :=
  match dopplersdk env, getenv env "DOPPLER_TOKEN" with
  | Installed sdk, Some token =>
      if truthy token then
        match sdk token (getenv_or env "DOPPLER_PROJECT" "yo-mama-bot")
                  (getenv_or env "DOPPLER_CONFIG" "dev") with
        | SecretsListed secrets => Some secrets
        | _ => None
        end
      else None
  | _, _ => None
  end.

(** A Doppler project that lists two secrets. *)
Definition two_secret_project : Env :=
  {| environ := {[ "DOPPLER_TOKEN" := "dp.st.dev.token" ]};
     dopplersdk := Installed (fun _ _ _ =>
       SecretsListed [ ("DISCORD_BOT_TOKEN",
                        {| computed := Some "abc"; raw := None |});
                       ("MATRIX_PASSWORD",
                        {| computed := None; raw := Some "xyz" |}) ]);
     boto3 := NotInstalled; hvac := NotInstalled |}.

End Accessors.

(* ===================================================================== *)
(** ** config.py                                                          *)
(* ===================================================================== *)

Module Config.
Import Secrets.

(** [Config.get_secret] and its alias [Config.get_config]. *)
Definition get_secret (env : Env) (key : string) (default : option string)
    : option string :=
  Secrets.get_secret env key None default None None None.

Definition get_config (env : Env) (key : string) (default : option string)
    : option string :=
  get_secret env key default.

(** The words [get_bool] reads as true. *)
Definition true_words : list string := [ "true"; "1"; "yes"; "on"; "enabled" ].

(** [Config.get_bool]. *)
Definition get_bool (env : Env) (key : string) (default : bool) : bool :=
  match get_secret env key None with
  | None => default
  | Some value => bool_decide (lower value ∈ true_words)
  end.

(** The string-valued properties of [Config]. *)
Definition gemini_api_key (env : Env) : option string :=
  get_secret env "GEMINI_API_KEY" None.
Definition gemini_model (env : Env) : option string :=
  get_secret env "GEMINI_MODEL" (Some "gemini-2.5-flash-lite").
Definition default_flavor (env : Env) : option string :=
  get_secret env "DEFAULT_FLAVOR" (Some "tech").
Definition log_level (env : Env) : option string :=
  get_secret env "LOG_LEVEL" (Some "INFO").

(** [Config.validate]: the pair [(is_valid, missing)]. *)
Definition required_keys : list string := [ "GEMINI_API_KEY" ].

Definition validate (env : Env) : bool * list string :=
  let missing :=
    fold_left
      (fun missing key =>
         if truthy_opt (get_secret env key None) then missing
         else missing ++ [key])
      required_keys [] in
  (Nat.eqb (length missing) 0, missing).

End Config.

(* ===================================================================== *)
(** ** The callers: main.py and the two bots                              *)
(* ===================================================================== *)

(** The callers parse numbers with the builtin [int(s)]. It is kept as a
    parameter [py_int] of the sections below ([None] stands for
    [ValueError]): what is proved of the callers holds whatever the
    builtin accepts. [int_of_digits] is the part of it used in examples:
    a non-empty string of ASCII digits, read in base ten. *)
Fixpoint digits_value (acc : Z) (s : string) : option Z :=
  match s with
  | EmptyString => Some acc
  | String c s' =>
      let n := nat_of_ascii c in
      if (48 <=? n)%nat && (n <=? 57)%nat
      then digits_value (10 * acc + Z.of_nat (n - 48)) s'
      else None
  end.

Definition int_of_digits (s : string) : option Z :=
  if truthy s then digits_value 0 s else None.

(** [x or fallback] for an [Optional[int]] and for an [Optional[str]]. *)
Definition int_or (x : option Z) (fallback : Z) : Z :=
  match x with
  | Some v => if (v =? 0)%Z then fallback else v
  | None => fallback
  end.

Definition str_or (x : option string) (fallback : string) : string :=
  match x with
  | Some v => if truthy v then v else fallback
  | None => fallback
  end.

(** [s.split()]: the maximal runs of characters that are not white
    space; [word] is the run being read. *)
Fixpoint split_words (word s : string) : list string :=
  match s with
  | EmptyString => if truthy word then [word] else []
  | String c s' =>
      if is_space c
      then (if truthy word then word :: split_words EmptyString s'
            else split_words EmptyString s')
      else split_words (word +:+ String c EmptyString) s'
  end.

Definition split (s : string) : list string := split_words EmptyString s.

Module Interactive.

(** The four variables of [interactive_mode]. *)
Record Settings : Type := mkSettings {
  current_flavor : string;
  current_meanness : Z;
  current_nerdiness : Z;
  current_target : option string
}.

(** What a line leads to besides the new settings. What a branch prints
    is left out; a branch that only prints is named after what it prints. *)
Inductive Notice : Type :=
| FlavorList | SettingsShown
| FlavorSet | UnknownFlavor
| MeannessSet | MeannessRange
| NerdinessSet | NerdinessRange
| InvalidNumber
| TargetReset | TargetSet
| CountRange
| UnknownCommand.

Inductive Effect : Type :=
| CallJoke (flavor : string) (meanness nerdiness : Z) (target : option string)
| CallRandom
| CallBatch (count : Z) (flavor : string) (meanness nerdiness : Z)
            (target : option string)
| Break
| Printed (what : Notice).

Section Loop.
Variable py_int : string -> option Z.

(** One round of the [while True] loop of [interactive_mode] on the line
    that [input()] returned. *)
Definition step (s : Settings) (line : string) : Settings * Effect :=
  let user_input := strip line in
  if negb (truthy user_input) then
    (s, CallJoke (current_flavor s) (current_meanness s) (current_nerdiness s)
                 (current_target s))
  else if String.eqb (lower user_input) "quit" then (s, Break)
  else if String.eqb (lower user_input) "flavors" then (s, Printed FlavorList)
  else if String.eqb (lower user_input) "settings" then (s, Printed SettingsShown)
  else if String.eqb (lower user_input) "r" then (s, CallRandom)
  else if startswith user_input "f " then
    let new_flavor := strip (drop_chars 2 user_input) in
    if bool_decide (lower new_flavor ∈ list_flavors)
    then ({| current_flavor := lower new_flavor;
             current_meanness := current_meanness s;
             current_nerdiness := current_nerdiness s;
             current_target := current_target s |}, Printed FlavorSet)
    else (s, Printed UnknownFlavor)
  else if startswith user_input "m " then
    match py_int (strip (drop_chars 2 user_input)) with
    | Some new_meanness =>
        if (1 <=? new_meanness)%Z && (new_meanness <=? 10)%Z
        then ({| current_flavor := current_flavor s;
                 current_meanness := new_meanness;
                 current_nerdiness := current_nerdiness s;
                 current_target := current_target s |}, Printed MeannessSet)
        else (s, Printed MeannessRange)
    | None => (s, Printed InvalidNumber)
    end
  else if startswith user_input "n " then
    match py_int (strip (drop_chars 2 user_input)) with
    | Some new_nerdiness =>
        if (1 <=? new_nerdiness)%Z && (new_nerdiness <=? 10)%Z
        then ({| current_flavor := current_flavor s;
                 current_meanness := current_meanness s;
                 current_nerdiness := new_nerdiness;
                 current_target := current_target s |}, Printed NerdinessSet)
        else (s, Printed NerdinessRange)
    | None => (s, Printed InvalidNumber)
    end
  else if startswith user_input "t " then
    let new_target := strip (drop_chars 2 user_input) in
    if String.eqb (lower new_target) "none" || String.eqb (lower new_target) "reset"
    then ({| current_flavor := current_flavor s;
             current_meanness := current_meanness s;
             current_nerdiness := current_nerdiness s;
             current_target := None |}, Printed TargetReset)
    else ({| current_flavor := current_flavor s;
             current_meanness := current_meanness s;
             current_nerdiness := current_nerdiness s;
             current_target := Some new_target |}, Printed TargetSet)
  else if startswith user_input "b " then
    match py_int (strip (drop_chars 2 user_input)) with
    | Some count =>
        if (1 <=? count)%Z && (count <=? 20)%Z
        then (s, CallBatch count (current_flavor s) (current_meanness s)
                           (current_nerdiness s) (current_target s))
        else (s, Printed CountRange)
    | None => (s, Printed InvalidNumber)
    end
  else (s, Printed UnknownCommand).

(** The call of the generator that an effect stands for, with the jokes
    it prints. *)
Definition perform (e : Effect) : M (list string) :=
  match e with
  | CallJoke flavor meanness nerdiness target =>
      let* joke := generate_joke (Some flavor) meanness nerdiness target in
      ret [joke]
  | CallRandom =>
      let* joke := random_joke in
      ret [joke]
  | CallBatch count flavor meanness nerdiness target =>
      generate_batch count (Some flavor) meanness nerdiness target
  | Break => ret []
  | Printed _ => ret []
  end.

(** The settings after the lines read so far; the loop ends at quit. *)
Fixpoint settings_after (lines : list string) (s : Settings) : Settings :=
  match lines with
  | [] => s
  | line :: rest =>
      match step s line with
      | (_, Break) => s
      | (s', _) => settings_after rest s'
      end
  end.

End Loop.

(** Settings that need no repair by the generator: a flavor of the
    catalogue and two levels in 1..10. *)
Definition well_set (s : Settings) : Prop :=
  current_flavor s ∈ FLAVORS
  /\ (1 <= current_meanness s <= 10)%Z
  /\ (1 <= current_nerdiness s <= 10)%Z.

End Interactive.

Module MatrixBot.

(** What the bot is set up with: its command prefix, its own user id,
    and the two default levels of the configuration. *)
Record Bot : Type := mkBot {
  prefix : string;
  user_id : string;
  default_meanness : Z;
  default_nerdiness : Z
}.

Inductive Refusal : Type :=
| MeannessRange | NerdinessRange | CountNotNumber | CountRange.

(** What a message leads to; the texts sent to the room are left out. *)
Inductive Handling : Type :=
| Ignored
| JokeCall (flavor : option string) (meanness nerdiness : Z)
| RandomCall
| BatchCall (count : Z) (flavor : option string) (meanness nerdiness : Z)
| FlavorsSent
| HelpSent
| Refused (why : Refusal)
| UnknownSent (command : string)
| ErrorSent.

Section Commands.
Variable py_int : string -> option Z.
Variable bot : Bot.

(** [_cmd_joke]: both numbers are parsed before either is checked; a
    [ValueError] of [int] leaves the function and is answered by the
    [except] clause of [_handle_message]. *)
Definition _cmd_joke (args : list string) : Handling :=
  let flavor := args !! 0%nat in
  match (match args !! 1%nat with
         | Some a => py_int a
         | None => Some (default_meanness bot)
         end) with
  | None => ErrorSent
  | Some meanness =>
      match (match args !! 2%nat with
             | Some a => py_int a
             | None => Some (default_nerdiness bot)
             end) with
      | None => ErrorSent
      | Some nerdiness =>
          if (meanness <? 1)%Z || (11 <? meanness)%Z then Refused MeannessRange
          else if (nerdiness <? 1)%Z || (10 <? nerdiness)%Z then Refused NerdinessRange
          else JokeCall flavor meanness nerdiness
      end
  end.

(** [_cmd_batch]. *)
Definition _cmd_batch (args : list string) : Handling :=
  match (match args !! 0%nat with
         | Some a => py_int a
         | None => Some 3%Z
         end) with
  | None => Refused CountNotNumber
  | Some count =>
      if (count <? 1)%Z || (10 <? count)%Z then Refused CountRange
      else BatchCall count (args !! 1%nat)
                     (default_meanness bot) (default_nerdiness bot)
  end.

(** [_handle_message] on a message with the given sender and body. *)
Definition _handle_message (sender body : string) : Handling :=
  if String.eqb sender (user_id bot) then Ignored
  else
    let message := strip body in
    if negb (startswith message (prefix bot)) then Ignored
    else
      match split (drop_chars (String.length (prefix bot)) message) with
      | [] => Ignored
      | word :: args =>
          let command := lower word in
          if String.eqb command "joke" then _cmd_joke args
          else if String.eqb command "random" then RandomCall
          else if String.eqb command "batch" then _cmd_batch args
          else if String.eqb command "flavors" then FlavorsSent
          else if String.eqb command "help" then HelpSent
          else UnknownSent command
      end.

End Commands.

(** The call of the generator that a handling stands for. *)
Definition perform (h : Handling) : M (list string) :=
  match h with
  | JokeCall flavor meanness nerdiness =>
      let* joke := generate_joke flavor meanness nerdiness None in
      ret [joke]
  | RandomCall =>
      let* joke := random_joke in
      ret [joke]
  | BatchCall count flavor meanness nerdiness =>
      generate_batch count flavor meanness nerdiness None
  | _ => ret []
  end.

End MatrixBot.

Module DiscordBot.

(** The defaults that the slash commands read from the configuration. *)
Record Defaults : Type := mkDefaults {
  default_flavor : string;
  default_meanness : Z;
  default_nerdiness : Z
}.

Inductive Handling : Type :=
| JokeCall (flavor : string) (meanness nerdiness : Z) (target : option string)
| RefusedMeanness
| RefusedNerdiness.

(** The slash command [/joke], up to its call of [generate_joke];
    [user] is the display name of the mentioned user, if one is given. *)
Definition joke_slash (config : Defaults)
    (flavor : option string) (meanness nerdiness : option Z)
    (target user : option string) : Handling :=
  let bad_meanness :=
    match meanness with
    | Some m => negb ((1 <=? m)%Z && (m <=? 11)%Z)
    | None => false
    end in
  let bad_nerdiness :=
    match nerdiness with
    | Some n => negb ((1 <=? n)%Z && (n <=? 10)%Z)
    | None => false
    end in
  if bad_meanness then RefusedMeanness
  else if bad_nerdiness then RefusedNerdiness
  else if bool_decide (flavor = Some "thegame") then
    JokeCall "thegame" 11 (int_or meanness 5)
             (match user with
              | Some display_name => Some display_name
              | None => Some (str_or target "you")
              end)
  else
    JokeCall (str_or flavor (default_flavor config))
             (int_or meanness (default_meanness config))
             (int_or nerdiness (default_nerdiness config))
             (match user with
              | Some display_name => Some display_name
              | None => target
              end).

End DiscordBot.

(** The rounds of a loop that calls [item] [n] times in a row, each call
    in the world the one before it left, whatever the calls return or
    raise: the results of all the rounds in order, and the world after the
    last one. *)
Fixpoint run_rounds (item : M string) (n : nat) (w : World)
    : list (result string) * World :=
  match n with
  | O => ([], w)
  | S n' =>
      match item w with
      | (r, w') =>
          match run_rounds item n' w' with
          | (rs, w'') => (r :: rs, w'')
          end
      end
  end.

(** The values of the rounds that returned, in order. *)
Fixpoint successes (results : list (result string)) : list string :=
  match results with
  | [] => []
  | Ok joke :: rest => joke :: successes rest
  | Raised _ :: rest => successes rest
  end.

(** An item that raises in one world and returns in the next: it makes a
    draw, raises on an even one, and returns the number of the draw on an
    odd one. *)
Definition flaky_item : M string :=
  fun w =>
    if Nat.even (entropy w (drawn w))
    then (Raised IndexError, consume_draw w)
    else (Ok (str_of_int (Z.of_nat (drawn w))), consume_draw w).

(* ===================================================================== *)
(** ** Facts about the string primitives                                  *)
(* ===================================================================== *)

Section StringFacts.

Lemma app_nil_str (b : string) : EmptyString +:+ b = b.
Proof. reflexivity. Qed.

Lemma app_cons_str (x : ascii) (a b : string) :
  String x a +:+ b = String x (a +:+ b).
Proof. reflexivity. Qed.

Lemma app_assoc_str (a b c : string) : (a +:+ b) +:+ c = a +:+ b +:+ c.
Proof.
  induction a as [|x a IH]; [reflexivity|].
  now rewrite !app_cons_str, IH.
Qed.

Lemma startswith_spec (s p : string) :
  startswith s p = true <-> exists c, s = p +:+ c.
Proof.
  revert s; induction p as [|a p IH]; intros s; simpl.
  - split; [intros _; exists s; reflexivity | reflexivity].
  - destruct s as [|b s].
    + split; [discriminate | intros [c Hc]; discriminate].
    + destruct (ascii_dec a b) as [->|Hne].
      * rewrite IH. split; intros [c Hc]; exists c.
        -- now rewrite Hc.
        -- rewrite app_cons_str in Hc. now inversion Hc.
      * split; [discriminate |].
        intros [c Hc]. rewrite app_cons_str in Hc. inversion Hc; congruence.
Qed.

(** The substring test finds exactly the strings with an occurrence. *)
Lemma contains_spec (pat s : string) :
  contains pat s = true <-> exists a c, s = a +:+ pat +:+ c.
Proof.
  induction s as [|x s IH].
  - simpl. rewrite orb_false_r, startswith_spec. split.
    + intros [c Hc]. exists EmptyString, c. exact Hc.
    + intros [a [c Hc]]. destruct a; [exists c; exact Hc | discriminate].
  - cbn [contains]. rewrite orb_true_iff, startswith_spec, IH. split.
    + intros [[c Hc] | [a [c Hc]]].
      * exists EmptyString, c. exact Hc.
      * exists (String x a), c. now rewrite app_cons_str, Hc.
    + intros [a [c Hc]]. destruct a as [|y a].
      * left. exists c. exact Hc.
      * right. exists a, c. rewrite app_cons_str in Hc. now inversion Hc.
Qed.

Lemma map_chars_app f (a b : string) :
  map_chars f (a +:+ b) = map_chars f a +:+ map_chars f b.
Proof.
  induction a as [|x a IH]; [reflexivity|].
  rewrite app_cons_str. simpl. now rewrite IH.
Qed.

(** A split of the image of [map_chars] comes from a split of the
    argument: the map works character by character. *)
Lemma map_chars_split f (s x y : string) :
  map_chars f s = x +:+ y ->
  exists a b, s = a +:+ b /\ map_chars f a = x /\ map_chars f b = y.
Proof.
  revert s; induction x as [|c x IH]; intros s H.
  - exists EmptyString, s. repeat split; assumption.
  - rewrite app_cons_str in H.
    destruct s as [|d s]; [discriminate|]. simpl in H. inversion H as [[Hc Hs]].
    destruct (IH s Hs) as (a & b & -> & Ha & Hb).
    exists (String d a), b. simpl. rewrite Ha. repeat split; assumption.
Qed.

Lemma lower_char_idem (c : ascii) : lower_char (lower_char c) = lower_char c.
Proof. destruct c as [[] [] [] [] [] [] [] []]; reflexivity. Qed.

Lemma lower_idem (s : string) : lower (lower s) = lower s.
Proof.
  unfold lower. induction s as [|c s IH]; simpl; [reflexivity|].
  now rewrite lower_char_idem, IH.
Qed.

Lemma truthy_lower (s : string) : truthy (lower s) = truthy s.
Proof. destruct s; reflexivity. Qed.

Lemma truthy_true (s : string) : truthy s = true <-> s <> EmptyString.
Proof. destruct s; simpl; split; congruence. Qed.

End StringFacts.

Lemma contains_lower_spec (pat s : string) :
  contains (lower pat) (lower s) = true <-> occurs_nocase pat s.
Proof.
  rewrite contains_spec. unfold occurs_nocase, lower. split.
  - intros (x & z & H).
    apply map_chars_split in H as (a & bc & -> & <- & H).
    apply map_chars_split in H as (b & c & -> & Hb & <-).
    exists a, b, c. split; [reflexivity | exact Hb].
  - intros (a & b & c & -> & Hb).
    exists (map_chars lower_char a), (map_chars lower_char c).
    now rewrite !map_chars_app, Hb.
Qed.

Lemma is_rate_limit_spec (msg : string) :
  is_rate_limit msg = true <-> throttling_description msg.
Proof.
  unfold is_rate_limit, throttling_description.
  rewrite !orb_true_iff, contains_spec.
  change "quota" with (lower "quota") at 1.
  change "rate limit" with (lower "rate limit") at 1.
  rewrite !contains_lower_spec. tauto.
Qed.

(* ===================================================================== *)
(** ** Facts about the monad, the random draws and the request            *)
(* ===================================================================== *)

Lemma bind_ok {A B} (m : M A) (k : A -> M B) (w w' : World) (a : A) :
  m w = (Ok a, w') -> bind m k w = k a w'.
Proof. intros H. unfold bind. now rewrite H. Qed.

Lemma bind_raised {A B} (m : M A) (k : A -> M B) (w w' : World) (e : exn) :
  m w = (Raised e, w') -> bind m k w = (Raised e, w').
Proof. intros H. unfold bind. now rewrite H. Qed.

Lemma same_service_refl (w : World) : same_service w w.
Proof. split; reflexivity. Qed.

Lemma same_service_draw (w : World) : same_service w (consume_draw w).
Proof. split; reflexivity. Qed.

#[local] Hint Resolve same_service_refl same_service_draw : core.

(** [random.choice] on a non-empty sequence returns the element at the
    reduced draw, and consumes that draw. *)
Lemma random_choice_ok {A} (seq : list A) (w : World) :
  seq <> [] ->
  exists x, random_choice seq w = (Ok x, consume_draw w)
            /\ seq !! (entropy w (drawn w) mod length seq) = Some x.
Proof.
  intros Hne. destruct seq as [|y seq]; [congruence|].
  unfold random_choice, bind, randbelow.
  set (l := y :: seq).
  assert (Hlt : (entropy w (drawn w) mod length l < length l)%nat)
    by (apply Nat.mod_upper_bound; discriminate).
  destruct (lookup_lt_is_Some_2 l _ Hlt) as [x Hx].
  exists x. now rewrite Hx.
Qed.

Lemma random_choice_elem {A} (seq : list A) (w : World) :
  seq <> [] ->
  exists x, random_choice seq w = (Ok x, consume_draw w) /\ x ∈ seq.
Proof.
  intros Hne. destruct (random_choice_ok seq w Hne) as (x & H & Hx).
  exists x. split; [exact H|]. eapply list_elem_of_lookup_2; eassumption.
Qed.

Lemma FLAVORS_nonempty : FLAVORS <> [].
Proof. discriminate. Qed.

Lemma rate_limit_jokes_nonempty : rate_limit_jokes <> [].
Proof. discriminate. Qed.

(** The three ways [resolve_flavor] can go. *)
Lemma resolve_flavor_known (f : string) (w : World) :
  lower f ∈ FLAVORS -> resolve_flavor (Some f) w = (Ok (lower f), w).
Proof.
  intros Hin. unfold resolve_flavor.
  rewrite (bool_decide_eq_true_2 _ Hin), andb_false_r. reflexivity.
Qed.

Lemma resolve_flavor_empty (w : World) :
  resolve_flavor (Some EmptyString) w = (Ok EmptyString, w).
Proof. reflexivity. Qed.

Lemma resolve_flavor_unknown (f : string) (w : World) :
  f <> EmptyString -> lower f ∉ FLAVORS ->
  resolve_flavor (Some f) w = random_choice FLAVORS w.
Proof.
  intros Hne Hnin. unfold resolve_flavor.
  apply truthy_true in Hne. rewrite Hne, (bool_decide_eq_false_2 _ Hnin).
  reflexivity.
Qed.

Lemma resolve_flavor_absent (w : World) :
  resolve_flavor None w = random_choice FLAVORS w.
Proof. reflexivity. Qed.

Lemma resolve_flavor_total (flavor : option string) (w : World) :
  exists fl w', resolve_flavor flavor w = (Ok fl, w') /\ same_service w w'.
Proof.
  destruct flavor as [f|].
  - destruct (decide (lower f ∈ FLAVORS)) as [Hin|Hnin].
    + exists (lower f), w. split; [now apply resolve_flavor_known | auto].
    + destruct f as [|c f].
      * exists EmptyString, w. split; [reflexivity | auto].
      * rewrite resolve_flavor_unknown by (auto || discriminate).
        destruct (random_choice_elem FLAVORS w FLAVORS_nonempty) as (x & H & _).
        exists x, (consume_draw w). split; [exact H | auto].
  - rewrite resolve_flavor_absent.
    destruct (random_choice_elem FLAVORS w FLAVORS_nonempty) as (x & H & _).
    exists x, (consume_draw w). split; [exact H | auto].
Qed.

(** The clamp of lines 97-98. *)
Lemma clamp_level_range (level : Z) : (1 <= clamp_level level <= 10)%Z.
Proof. unfold clamp_level. lia. Qed.

Lemma clamp_level_cases (level : Z) :
  clamp_level level =
    if (level <? 1)%Z then 1%Z else if (10 <? level)%Z then 10%Z else level.
Proof.
  unfold clamp_level.
  destruct (Z.ltb_spec level 1); destruct (Z.ltb_spec 10 level); lia.
Qed.

Ltac levels_1_to_10 z H :=
  assert (z = 1 \/ z = 2 \/ z = 3 \/ z = 4 \/ z = 5 \/
          z = 6 \/ z = 7 \/ z = 8 \/ z = 9 \/ z = 10)%Z as H by lia.

(** Each of the ten levels has a phrase in both guides. *)
Lemma meanness_guide_total (level : Z) :
  (1 <= level <= 10)%Z -> exists phrase, subscript meanness_guide level = Ok phrase.
Proof.
  intros Hr. levels_1_to_10 level H.
  repeat (destruct H as [-> | H]); try subst level; vm_compute; eauto.
Qed.

Lemma nerdiness_guide_total (level : Z) :
  (1 <= level <= 10)%Z -> exists phrase, subscript nerdiness_guide level = Ok phrase.
Proof.
  intros Hr. levels_1_to_10 level H.
  repeat (destruct H as [-> | H]); try subst level; vm_compute; eauto.
Qed.

(** Outside the ten levels the subscript raises. *)
Lemma meanness_guide_only (level : Z) :
  is_Some (meanness_guide !! level) -> (1 <= level <= 10)%Z.
Proof.
  intros [phrase H]. apply elem_of_list_to_map_2 in H.
  repeat (apply elem_of_cons in H as [H | H]; [inversion H; lia|]).
  inversion H.
Qed.

Lemma build_prompt_in_range (flavor : string) (meanness nerdiness : Z)
    (target_name : option string) :
  (1 <= meanness <= 10)%Z -> (1 <= nerdiness <= 10)%Z ->
  exists prompt, _build_prompt flavor meanness nerdiness target_name = Ok prompt.
Proof.
  intros Hm Hn. unfold _build_prompt.
  destruct (meanness_guide_total meanness Hm) as [pm ->].
  destruct (nerdiness_guide_total nerdiness Hn) as [pn ->].
  eauto.
Qed.

(** The request is always built: the world only loses the draw that an
    absent or unknown theme costs. *)
Lemma compose_request_total (flavor : option string) (meanness nerdiness : Z)
    (target_name : option string) (w : World) :
  exists fl prompt w',
    compose_request flavor meanness nerdiness target_name w = (Ok (fl, prompt), w')
    /\ resolve_flavor flavor w = (Ok fl, w')
    /\ _build_prompt fl (clamp_level meanness) (clamp_level nerdiness) target_name
       = Ok prompt
    /\ same_service w w'.
Proof.
  destruct (resolve_flavor_total flavor w) as (fl & w' & Hfl & Hsame).
  destruct (build_prompt_in_range fl _ _ target_name
              (clamp_level_range meanness) (clamp_level_range nerdiness))
    as [prompt Hp].
  exists fl, prompt, w'. repeat split; try assumption; try apply Hsame.
  unfold compose_request. rewrite (bind_ok _ _ _ _ _ Hfl).
  unfold bind, lift, ret. now rewrite Hp.
Qed.

(** One call of [generate_joke], once the request is known: the request
    is sent, and the answer decides the result. *)
Lemma generate_joke_step (flavor : option string) (meanness nerdiness : Z)
    (target_name : option string) (w w1 : World) (fl prompt : string) :
  compose_request flavor meanness nerdiness target_name w = (Ok (fl, prompt), w1) ->
  generate_joke flavor meanness nerdiness target_name w =
    match gemini w1 (length (requests w1)) prompt with
    | Response (Some text) => ret (strip text)
    | Response None => on_exception none_strip_error fl
    | Failure error_msg => on_exception error_msg fl
    end (record_request prompt w1).
Proof.
  intros H. unfold generate_joke. rewrite (bind_ok _ _ _ _ _ H).
  unfold bind, generate_content. reflexivity.
Qed.

(** The handler never raises, and leaves the service side alone. *)
Lemma on_exception_total (error_msg fl : string) (w : World) :
  exists joke w', on_exception error_msg fl w = (Ok joke, w') /\ same_service w w'
    /\ (if is_rate_limit error_msg then joke ∈ rate_limit_jokes
        else joke = _get_fallback_joke fl).
Proof.
  unfold on_exception. destruct (is_rate_limit error_msg).
  - destruct (random_choice_elem rate_limit_jokes w rate_limit_jokes_nonempty)
      as (x & H & Hx).
    exists x, (consume_draw w). auto.
  - exists (_get_fallback_joke fl), w. auto.
Qed.

Lemma fallbacks_non_empty (fl joke : string) :
  fallbacks !! fl = Some joke -> joke <> EmptyString.
Proof.
  intros H. apply elem_of_list_to_map_2 in H.
  repeat (apply elem_of_cons in H as [H | H]; [inversion H; discriminate|]).
  inversion H.
Qed.

Lemma get_fallback_joke_non_empty (fl : string) :
  _get_fallback_joke fl <> EmptyString.
Proof.
  unfold _get_fallback_joke. destruct (fallbacks !! fl) as [j|] eqn:E; simpl.
  - eapply fallbacks_non_empty; eassumption.
  - discriminate.
Qed.

Lemma rate_limit_jokes_non_empty (joke : string) :
  joke ∈ rate_limit_jokes -> joke <> EmptyString.
Proof.
  intros H.
  repeat (apply elem_of_cons in H as [-> | H]; [discriminate|]).
  inversion H.
Qed.

(* ===================================================================== *)
(** ** Properties of [generate_joke]                                      *)
(* ===================================================================== *)

(** C1. When the call to the service raises and the description of the
    failure contains "429", or "quota" or "rate limit" in any letter case,
    [generate_joke] returns normally, and what it returns is one of the
    six strings of [rate_limit_jokes]. This holds for every theme,
    level and target, whatever the random generator draws. *)
Theorem throttling_failure_returns_rate_limit_joke
    (flavor : option string) (meanness nerdiness : Z)
    (target_name : option string) (w : World) (msg : string) :
  (forall prompt, gemini w (length (requests w)) prompt = Failure msg) ->
  throttling_description msg ->
  exists joke w',
    generate_joke flavor meanness nerdiness target_name w = (Ok joke, w')
    /\ joke ∈ rate_limit_jokes.
Proof.
  intros Hfail Hmsg.
  destruct (compose_request_total flavor meanness nerdiness target_name w)
    as (fl & prompt & w1 & Hc & _ & _ & Hg & Hr).
  rewrite (generate_joke_step _ _ _ _ _ _ _ _ Hc), Hg, Hr, Hfail.
  apply is_rate_limit_spec in Hmsg.
  destruct (on_exception_total msg fl (record_request prompt w1))
    as (joke & w' & H & _ & Hj).
  rewrite Hmsg in Hj. exists joke, w'. split; assumption.
Qed.

Lemma throttling_failure_returns_rate_limit_joke_witness :
  exists joke w',
    generate_joke (Some "tech") 5 5 None rate_limited_world = (Ok joke, w')
    /\ joke ∈ rate_limit_jokes.
Proof.
  apply (throttling_failure_returns_rate_limit_joke
           (Some "tech") 5 5 None rate_limited_world
           "API Error: Rate limit exceeded (429)").
  - intros prompt. reflexivity.
  - left. exists "API Error: Rate limit exceeded (", ")". reflexivity.
Defined.

(** C2. When the call to the service raises and the description carries
    none of the throttling markers, [generate_joke] returns normally: the
    entry of [fallbacks] for the resolved theme when there is one, the
    generic fallback otherwise; the string returned is never empty. *)
Theorem other_failure_returns_theme_fallback
    (flavor : option string) (meanness nerdiness : Z)
    (target_name : option string) (w : World) (msg : string) :
  (forall prompt, gemini w (length (requests w)) prompt = Failure msg) ->
  ~ throttling_description msg ->
  exists fl prompt w1 joke w',
    compose_request flavor meanness nerdiness target_name w = (Ok (fl, prompt), w1)
    /\ generate_joke flavor meanness nerdiness target_name w = (Ok joke, w')
    /\ (forall specific, fallbacks !! fl = Some specific -> joke = specific)
    /\ (fallbacks !! fl = None -> joke = generic_fallback)
    /\ joke <> EmptyString.
Proof.
  intros Hfail Hmsg.
  destruct (compose_request_total flavor meanness nerdiness target_name w)
    as (fl & prompt & w1 & Hc & _ & _ & Hg & Hr).
  assert (Hno : is_rate_limit msg = false).
  { destruct (is_rate_limit msg) eqn:E; [|reflexivity].
    exfalso. apply Hmsg, is_rate_limit_spec, E. }
  exists fl, prompt, w1, (_get_fallback_joke fl), (record_request prompt w1).
  split; [exact Hc|]. split.
  - rewrite (generate_joke_step _ _ _ _ _ _ _ _ Hc), Hg, Hr, Hfail.
    unfold on_exception. now rewrite Hno.
  - unfold _get_fallback_joke. repeat split.
    + intros specific ->. reflexivity.
    + intros ->. reflexivity.
    + apply get_fallback_joke_non_empty.
Qed.

Lemma not_throttling_connection_refused :
  ~ throttling_description "Connection refused".
Proof.
  intros H. apply is_rate_limit_spec in H. vm_compute in H. discriminate.
Qed.

Lemma other_failure_returns_theme_fallback_witness :
  exists fl prompt w1 joke w',
    compose_request (Some "Linux") 5 5 None unreachable_world = (Ok (fl, prompt), w1)
    /\ generate_joke (Some "Linux") 5 5 None unreachable_world = (Ok joke, w')
    /\ (forall specific, fallbacks !! fl = Some specific -> joke = specific)
    /\ (fallbacks !! fl = None -> joke = generic_fallback)
    /\ joke <> EmptyString.
Proof.
  apply (other_failure_returns_theme_fallback
           (Some "Linux") 5 5 None unreachable_world "Connection refused").
  - intros prompt. reflexivity.
  - exact not_throttling_connection_refused.
Defined.

(** C3. For all integers given as meanness and nerdiness, the levels that
    reach the two guide tables are the inputs clamped into 1..10 (below 1
    becomes 1, above 10 becomes 10, anything else is unchanged), both
    subscripts succeed, the request is built from the clamped levels, and
    [generate_joke] returns without raising. *)
Theorem levels_are_clamped_before_lookup
    (flavor : option string) (meanness nerdiness : Z)
    (target_name : option string) (w : World) :
  let m := clamp_level meanness in
  let n := clamp_level nerdiness in
  (1 <= m <= 10)%Z /\ (1 <= n <= 10)%Z
  /\ m = (if (meanness <? 1)%Z then 1 else if (10 <? meanness)%Z then 10 else meanness)%Z
  /\ n = (if (nerdiness <? 1)%Z then 1 else if (10 <? nerdiness)%Z then 10 else nerdiness)%Z
  /\ (exists phrase, subscript meanness_guide m = Ok phrase)
  /\ (exists phrase, subscript nerdiness_guide n = Ok phrase)
  /\ (exists fl prompt w',
        compose_request flavor meanness nerdiness target_name w = (Ok (fl, prompt), w')
        /\ _build_prompt fl m n target_name = Ok prompt)
  /\ (exists joke w',
        generate_joke flavor meanness nerdiness target_name w = (Ok joke, w')).
Proof.
  intros m n. subst m n.
  pose proof (clamp_level_range meanness) as Hm.
  pose proof (clamp_level_range nerdiness) as Hn.
  split; [exact Hm|]. split; [exact Hn|].
  split; [apply clamp_level_cases|]. split; [apply clamp_level_cases|].
  split; [now apply meanness_guide_total|].
  split; [now apply nerdiness_guide_total|].
  destruct (compose_request_total flavor meanness nerdiness target_name w)
    as (fl & prompt & w1 & Hc & _ & Hp & _).
  split; [exists fl, prompt, w1; split; assumption|].
  rewrite (generate_joke_step _ _ _ _ _ _ _ _ Hc).
  destruct (gemini w1 (length (requests w1)) prompt) as [[text|]|error_msg].
  - eexists _, _. reflexivity.
  - destruct (on_exception_total none_strip_error fl (record_request prompt w1))
      as (joke & w' & H & _). eauto.
  - destruct (on_exception_total error_msg fl (record_request prompt w1))
      as (joke & w' & H & _). eauto.
Qed.

(** Without the clamp the subscript would raise: level 0 has no phrase. *)
Example build_prompt_level_0 :
  _build_prompt "tech" 0 5 None = Raised (KeyError 0).
Proof. reflexivity. Qed.

(* ===================================================================== *)
(** ** The theme of a request                                             *)
(* ===================================================================== *)

(** C10. Membership of a theme is tested on its lower-casing: a theme
    string whose lower-casing is in [FLAVORS] (such as "TECH" or "Linux")
    is accepted. No random draw is made, the request is built from the
    lower-cased tag, and after a failure that is not a throttling one the
    fallback joke is the one selected by the lower-cased tag. *)
Theorem theme_membership_ignores_case
    (f : string) (meanness nerdiness : Z) (target_name : option string)
    (w : World) :
  lower f ∈ FLAVORS ->
  exists prompt,
    resolve_flavor (Some f) w = (Ok (lower f), w)
    /\ compose_request (Some f) meanness nerdiness target_name w
       = (Ok (lower f, prompt), w)
    /\ _build_prompt (lower f) (clamp_level meanness) (clamp_level nerdiness)
                     target_name = Ok prompt
    /\ (forall msg,
          gemini w (length (requests w)) prompt = Failure msg ->
          ~ throttling_description msg ->
          generate_joke (Some f) meanness nerdiness target_name w
          = (Ok (_get_fallback_joke (lower f)), record_request prompt w)).
Proof.
  intros Hin.
  pose proof (resolve_flavor_known f w Hin) as Hres.
  destruct (compose_request_total (Some f) meanness nerdiness target_name w)
    as (fl & prompt & w1 & Hc & Hfl & Hp & _).
  rewrite Hres in Hfl. inversion Hfl; subst fl w1.
  exists prompt. repeat split; try assumption.
  intros msg Hfail Hmsg.
  rewrite (generate_joke_step _ _ _ _ _ _ _ _ Hc), Hfail.
  unfold on_exception.
  destruct (is_rate_limit msg) eqn:E; [|reflexivity].
  exfalso. apply Hmsg, is_rate_limit_spec, E.
Qed.

Lemma lower_TECH_in_FLAVORS : lower "TECH" ∈ FLAVORS.
Proof. apply (bool_decide_eq_true_1 _). vm_compute. reflexivity. Qed.

Lemma theme_membership_ignores_case_witness :
  exists prompt,
    resolve_flavor (Some "TECH") unreachable_world = (Ok "tech", unreachable_world)
    /\ compose_request (Some "TECH") 5 5 None unreachable_world
       = (Ok ("tech", prompt), unreachable_world)
    /\ _build_prompt "tech" 5 5 None = Ok prompt
    /\ generate_joke (Some "TECH") 5 5 None unreachable_world
       = (Ok "Yo mama so slow, buffering gives up and goes home.",
          record_request prompt unreachable_world).
Proof.
  destruct (theme_membership_ignores_case "TECH" 5 5 None unreachable_world
              lower_TECH_in_FLAVORS) as (prompt & H1 & H2 & H3 & H4).
  exists prompt. split; [exact H1|]. split; [exact H2|]. split; [exact H3|].
  apply (H4 "Connection refused").
  - reflexivity.
  - exact not_throttling_connection_refused.
Defined.

(** C4 fails as worded: "TECH" is not one of [FLAVORS], and yet it is kept
    (as "tech") with no draw made, where a random choice in the same world
    would have consumed a draw and given "classic". The empty string is not
    one of [FLAVORS] either, and it is kept as it is: the theme of the
    request is then no member of [FLAVORS]. *)
Lemma unlisted_theme_kept_counterexample :
  ("TECH" ∉ FLAVORS)
  /\ resolve_flavor (Some "TECH") rate_limited_world = (Ok "tech", rate_limited_world)
  /\ random_choice FLAVORS rate_limited_world
     = (Ok "classic", consume_draw rate_limited_world)
  /\ ~ replaced_by_random_theme "TECH" rate_limited_world
  /\ (EmptyString ∉ FLAVORS)
  /\ resolve_flavor (Some EmptyString) rate_limited_world
     = (Ok EmptyString, rate_limited_world)
  /\ ~ replaced_by_random_theme EmptyString rate_limited_world.
Proof.
  split; [|split; [|split; [|split; [|split; [|split]]]]].
  - intros H. apply (bool_decide_eq_true_2 _) in H. vm_compute in H. discriminate.
  - reflexivity.
  - reflexivity.
  - unfold replaced_by_random_theme. intros H.
    change (resolve_flavor (Some "TECH") rate_limited_world)
      with (@Ok string "tech", rate_limited_world) in H.
    change (random_choice FLAVORS rate_limited_world)
      with (@Ok string "classic", consume_draw rate_limited_world) in H.
    inversion H.
  - intros H. apply (bool_decide_eq_true_2 _) in H. vm_compute in H. discriminate.
  - reflexivity.
  - unfold replaced_by_random_theme. intros H.
    change (resolve_flavor (Some EmptyString) rate_limited_world)
      with (@Ok string EmptyString, rate_limited_world) in H.
    change (random_choice FLAVORS rate_limited_world)
      with (@Ok string "classic", consume_draw rate_limited_world) in H.
    inversion H.
Qed.

(** C4, amended. For every theme input other than the empty string, the
    request is built and its theme is a member of [FLAVORS]; when the
    input is a string whose lower-casing is not in [FLAVORS], it is
    dropped and the theme is the outcome of [random.choice(FLAVORS)],
    namely the member at the position of the next draw. *)
Theorem unknown_theme_replaced_by_random
    (flavor : option string) (meanness nerdiness : Z)
    (target_name : option string) (w : World) :
  flavor <> Some EmptyString ->
  exists fl prompt w',
    compose_request flavor meanness nerdiness target_name w = (Ok (fl, prompt), w')
    /\ fl ∈ FLAVORS
    /\ (forall f, flavor = Some f -> lower f ∉ FLAVORS ->
          random_choice FLAVORS w = (Ok fl, w')
          /\ w' = consume_draw w
          /\ FLAVORS !! (entropy w (drawn w) mod length FLAVORS) = Some fl).
Proof.
  intros Hne.
  destruct (compose_request_total flavor meanness nerdiness target_name w)
    as (fl & prompt & w1 & Hc & Hfl & _ & _).
  exists fl, prompt, w1. split; [exact Hc|].
  destruct (random_choice_ok FLAVORS w FLAVORS_nonempty) as (x & Hx & Hlook).
  assert (Hxin : x ∈ FLAVORS) by (eapply list_elem_of_lookup_2; eassumption).
  destruct flavor as [f|].
  - destruct (decide (lower f ∈ FLAVORS)) as [Hin|Hnin].
    + rewrite (resolve_flavor_known f w Hin) in Hfl. inversion Hfl; subst.
      split; [exact Hin|]. intros f' Hf' Hn. inversion Hf'; subst. contradiction.
    + assert (Hf : f <> EmptyString) by congruence.
      rewrite (resolve_flavor_unknown f w Hf Hnin), Hx in Hfl.
      inversion Hfl; subst. split; [exact Hxin|].
      intros _ _ _. repeat split; assumption.
  - rewrite resolve_flavor_absent, Hx in Hfl. inversion Hfl; subst.
    split; [exact Hxin|]. intros f Hf. discriminate.
Qed.

Lemma pirate_not_in_FLAVORS : lower "pirate" ∉ FLAVORS.
Proof.
  intros H. apply (bool_decide_eq_true_2 _) in H. vm_compute in H. discriminate.
Qed.

Lemma unknown_theme_replaced_by_random_witness :
  exists fl prompt w',
    compose_request (Some "pirate") 0 11 None rate_limited_world
    = (Ok (fl, prompt), w')
    /\ fl ∈ FLAVORS
    /\ random_choice FLAVORS rate_limited_world = (Ok fl, w')
    /\ w' = consume_draw rate_limited_world
    /\ FLAVORS !! (entropy rate_limited_world (drawn rate_limited_world)
                   mod length FLAVORS) = Some fl.
Proof.
  destruct (unknown_theme_replaced_by_random
              (Some "pirate") 0 11 None rate_limited_world)
    as (fl & prompt & w' & Hc & Hin & Hrand); [discriminate|].
  exists fl, prompt, w'. split; [exact Hc|]. split; [exact Hin|].
  apply (Hrand "pirate" eq_refl pirate_not_in_FLAVORS).
Defined.

(** The empty string is neither dropped nor a theme: it reaches
    [_build_prompt] as it is. *)
Example empty_theme_is_kept (w : World) :
  resolve_flavor (Some EmptyString) w = (Ok EmptyString, w)
  /\ EmptyString ∉ FLAVORS.
Proof.
  split; [reflexivity|].
  intros H. apply (bool_decide_eq_true_2 _) in H. vm_compute in H. discriminate.
Qed.

(* ===================================================================== *)
(** ** Determinism of the request                                         *)
(* ===================================================================== *)

(** C5 fails as worded: with the theme absent, two calls in a row with
    the same inputs build different texts, the first on "classic" and the
    second on "cybersecurity". *)
Lemma absent_theme_two_calls_counterexample :
  fst (resolve_flavor None rate_limited_world) = Ok "classic"
  /\ fst (resolve_flavor None (after_request None 5 5 None rate_limited_world))
     = Ok "cybersecurity"
  /\ request_text None 5 5 None rate_limited_world
     <> request_text None 5 5 None (after_request None 5 5 None rate_limited_world).
Proof.
  split; [reflexivity|]. split; [reflexivity|].
  vm_compute. intros H. inversion H.
Qed.

Lemma request_text_of_theme (flavor : option string) (meanness nerdiness : Z)
    (target_name : option string) (w : World) :
  exists fl, fst (resolve_flavor flavor w) = Ok fl
    /\ request_text flavor meanness nerdiness target_name w
       = _build_prompt fl (clamp_level meanness) (clamp_level nerdiness) target_name.
Proof.
  destruct (compose_request_total flavor meanness nerdiness target_name w)
    as (fl & prompt & w1 & Hc & Hfl & Hp & _).
  exists fl. unfold request_text. rewrite Hc, Hfl, Hp. split; reflexivity.
Qed.

(** C5, amended. The text of the request is a function of the inputs and
    of the theme the call works with. So a recognised theme gives the same
    text in any two calls with the same inputs, and any two calls with the
    same inputs that work with the same theme (drawn or given) build the
    same text. *)
Theorem request_text_deterministic
    (flavor : option string) (meanness nerdiness : Z)
    (target_name : option string) (w1 w2 : World) :
  (recognised flavor ->
     request_text flavor meanness nerdiness target_name w1
     = request_text flavor meanness nerdiness target_name w2)
  /\ (fst (resolve_flavor flavor w1) = fst (resolve_flavor flavor w2) ->
     request_text flavor meanness nerdiness target_name w1
     = request_text flavor meanness nerdiness target_name w2).
Proof.
  assert (Hsame : fst (resolve_flavor flavor w1) = fst (resolve_flavor flavor w2) ->
                  request_text flavor meanness nerdiness target_name w1
                  = request_text flavor meanness nerdiness target_name w2).
  { intros Heq.
    destruct (request_text_of_theme flavor meanness nerdiness target_name w1)
      as (fl1 & H1 & ->).
    destruct (request_text_of_theme flavor meanness nerdiness target_name w2)
      as (fl2 & H2 & ->).
    rewrite H1, H2 in Heq. now inversion Heq. }
  split; [|exact Hsame].
  intros (f & -> & Hin). apply Hsame.
  now rewrite !(resolve_flavor_known f _ Hin).
Qed.

Lemma request_text_deterministic_witness :
  request_text (Some "TECH") 11 0 (Some "bob") rate_limited_world
  = request_text (Some "TECH") 11 0 (Some "bob")
                 (after_request None 5 5 None rate_limited_world)
  /\ request_text None 5 5 None rate_limited_world
     = request_text None 5 5 None unreachable_world.
Proof.
  split.
  - apply (proj1 (request_text_deterministic
                    (Some "TECH") 11 0 (Some "bob") rate_limited_world
                    (after_request None 5 5 None rate_limited_world))).
    exists "TECH". split; [reflexivity | exact lower_TECH_in_FLAVORS].
  - apply (proj2 (request_text_deterministic
                    None 5 5 None rate_limited_world unreachable_world)).
    reflexivity.
Defined.

(* ===================================================================== *)
(** ** Batches                                                            *)
(* ===================================================================== *)

Lemma get_fallback_joke_canned (fl : string) : canned_joke (_get_fallback_joke fl).
Proof.
  unfold canned_joke, _get_fallback_joke.
  destruct (fallbacks !! fl) as [j|] eqn:E; simpl; eauto.
Qed.

Lemma canned_joke_non_empty (joke : string) : canned_joke joke -> joke <> EmptyString.
Proof.
  intros [H | [-> | [fl H]]].
  - now apply rate_limit_jokes_non_empty.
  - discriminate.
  - eapply fallbacks_non_empty; eassumption.
Qed.

(** One call of [generate_joke]: it returns, it sends exactly one
    request, and it returns a canned joke when the service fails. *)
Lemma generate_joke_total (flavor : option string) (meanness nerdiness : Z)
    (target_name : option string) (w : World) :
  exists joke w' prompt,
    generate_joke flavor meanness nerdiness target_name w = (Ok joke, w')
    /\ gemini w' = gemini w
    /\ requests w' = requests w ++ [prompt]
    /\ (always_fails w -> canned_joke joke).
Proof.
  destruct (compose_request_total flavor meanness nerdiness target_name w)
    as (fl & prompt & w1 & Hc & _ & _ & Hg & Hr).
  rewrite (generate_joke_step _ _ _ _ _ _ _ _ Hc), Hg, Hr.
  assert (Hh : forall msg,
    exists joke w',
      on_exception msg fl (record_request prompt w1) = (Ok joke, w')
      /\ gemini w' = gemini w /\ requests w' = requests w ++ [prompt]
      /\ canned_joke joke).
  { intros msg.
    destruct (on_exception_total msg fl (record_request prompt w1))
      as (joke & w' & H & [Hg' Hr'] & Hj).
    exists joke, w'. split; [exact H|].
    split; [rewrite Hg'; simpl; exact Hg|].
    split; [rewrite Hr'; simpl; now rewrite Hr|].
    destruct (is_rate_limit msg).
    - left. exact Hj.
    - rewrite Hj. apply get_fallback_joke_canned. }
  destruct (gemini w (length (requests w)) prompt) as [[text|]|msg] eqn:E.
  - exists (strip text), (record_request prompt w1), prompt.
    split; [reflexivity|]. split; [exact Hg|]. split; [simpl; now rewrite Hr|].
    intros Hf. destruct (Hf (length (requests w)) prompt) as [m Hm]. congruence.
  - destruct (Hh none_strip_error) as (joke & w' & H & ? & ? & ?).
    exists joke, w', prompt. auto.
  - destruct (Hh msg) as (joke & w' & H & ? & ? & ?).
    exists joke, w', prompt. auto.
Qed.

(** Whatever the item does, the loop adds at most one joke per round. *)
Lemma batch_loop_at_most (item : M string) (n : nat) (jokes : list string)
    (w : World) :
  (length (fst (batch_loop item n jokes w)) <= length jokes + n)%nat.
Proof.
  revert jokes w. induction n as [|n IH]; intros jokes w; simpl.
  - lia.
  - destruct (item w) as [[joke|e] w'].
    + specialize (IH (jokes ++ [joke]) w'). rewrite length_app in IH. simpl in IH. lia.
    + specialize (IH jokes w'). lia.
Qed.

(** An item that raises is skipped. *)
Example batch_loop_skips (w : World) :
  batch_loop (raise IndexError) 3 [] w = ([], w).
Proof. reflexivity. Qed.

(** With [generate_joke] as the item no round is skipped. *)
Lemma batch_loop_generate_joke (flavor : option string) (meanness nerdiness : Z)
    (target_name : option string) (n : nat) (jokes : list string) (w : World) :
  exists new w',
    batch_loop (generate_joke flavor meanness nerdiness target_name) n jokes w
    = (jokes ++ new, w')
    /\ length new = n
    /\ gemini w' = gemini w
    /\ length (requests w') = (length (requests w) + n)%nat
    /\ (always_fails w -> Forall canned_joke new).
Proof.
  revert jokes w. induction n as [|n IH]; intros jokes w.
  - exists [], w. simpl. rewrite app_nil_r, Nat.add_0_r. auto.
  - destruct (generate_joke_total flavor meanness nerdiness target_name w)
      as (joke & w1 & prompt & H1 & Hg1 & Hr1 & Hc1).
    destruct (IH (jokes ++ [joke]) w1) as (new & w' & H & Hlen & Hg & Hr & Hc).
    exists (joke :: new), w'. simpl. rewrite H1, H, <- app_assoc. simpl.
    split; [reflexivity|]. split; [now rewrite Hlen|].
    split; [congruence|].
    split; [rewrite Hr, Hr1, length_app; simpl; lia|].
    intros Hf. constructor; [auto|].
    apply Hc. intros k p. rewrite Hg1. apply Hf.
Qed.

(** The loop of [generate_batch] runs every round, whatever the rounds
    before it did: its jokes are the values of the rounds that returned,
    and its final world is the world after the last round. *)
Lemma batch_loop_runs_all_rounds (item : M string) (n : nat)
    (jokes : list string) (w : World) :
  batch_loop item n jokes w
  = (jokes ++ successes (fst (run_rounds item n w)), snd (run_rounds item n w)).
Proof.
  revert jokes w. induction n as [|n IH]; intros jokes w; simpl.
  - now rewrite app_nil_r.
  - destruct (item w) as [[joke|e] w1]; rewrite IH;
      destruct (run_rounds item n w1) as [rs w2]; simpl.
    + now rewrite <- app_assoc.
    + reflexivity.
Qed.

Lemma run_rounds_length (item : M string) (n : nat) (w : World) :
  length (fst (run_rounds item n w)) = n.
Proof.
  revert w. induction n as [|n IH]; intros w; simpl; [reflexivity|].
  destruct (item w) as [r w1]. specialize (IH w1).
  destruct (run_rounds item n w1) as [rs w2]. simpl in *. now rewrite IH.
Qed.

(** C6. [generate_batch] never raises. It makes [count] calls of
    [generate_joke] one after the other (none for a [count] below 1), each
    sending one request, and returns as many jokes as calls; when every
    call of the service raises, each joke returned is one of the canned
    strings of the exception handler, so a batch of 5 is a list of 5
    fallback jokes. In the loop itself an item that raises only loses its
    own place: whatever the item is, all the rounds are run, each in the
    world the round before it left, also after a round that raised; the
    jokes of the batch are the values of the rounds that returned, in
    order, and the world after the batch is the world after the last
    round; so the list has at most one joke per round. *)
Theorem generate_batch_returns_count_jokes
    (count : Z) (flavor : option string) (meanness nerdiness : Z)
    (target_name : option string) (w : World) :
  (forall (item : M string) (rounds : nat) (w0 : World),
      (length (fst (batch_loop item rounds [] w0)) <= rounds)%nat)
  /\ (forall (item : M string) (rounds : nat) (w0 : World),
      batch_loop item rounds [] w0
      = (successes (fst (run_rounds item rounds w0)),
         snd (run_rounds item rounds w0))
      /\ length (fst (run_rounds item rounds w0)) = rounds)
  /\ exists jokes w',
      generate_batch count flavor meanness nerdiness target_name w = (Ok jokes, w')
      /\ length jokes = Z.to_nat count
      /\ length (requests w') = (length (requests w) + Z.to_nat count)%nat
      /\ (always_fails w ->
          Forall canned_joke jokes /\ Forall (fun joke => joke <> EmptyString) jokes
          /\ (count = 5%Z -> length jokes = 5%nat /\ jokes <> [])).
Proof.
  split; [|split].
  - intros item rounds w0. apply (batch_loop_at_most item rounds [] w0).
  - intros item rounds w0. split.
    + apply (batch_loop_runs_all_rounds item rounds [] w0).
    + apply run_rounds_length.
  - destruct (batch_loop_generate_joke flavor meanness nerdiness target_name
                (Z.to_nat count) [] w) as (new & w' & H & Hlen & _ & Hr & Hc).
    exists new, w'. unfold generate_batch. rewrite H. simpl.
    split; [reflexivity|]. split; [exact Hlen|]. split; [exact Hr|].
    intros Hf. specialize (Hc Hf). split; [exact Hc|]. split.
    + eapply Forall_impl; [exact Hc|]. intros j. apply canned_joke_non_empty.
    + intros ->. split; [exact Hlen|].
      intros ->. simpl in Hlen. discriminate.
Qed.

Lemma unreachable_world_always_fails : always_fails unreachable_world.
Proof. intros k prompt. exists "Connection refused". reflexivity. Qed.

Lemma generate_batch_returns_count_jokes_witness :
  (exists jokes w',
     generate_batch 5 (Some "tech") 5 5 None unreachable_world = (Ok jokes, w')
     /\ length jokes = 5%nat
     /\ length (requests w') = 5%nat
     /\ Forall canned_joke jokes
     /\ jokes <> [])
  /\ fst (run_rounds flaky_item 5 rate_limited_world)
     = [ Raised IndexError; Ok "1"; Raised IndexError; Ok "3"; Raised IndexError ]
  /\ batch_loop flaky_item 5 [] rate_limited_world
     = ([ "1"; "3" ], snd (run_rounds flaky_item 5 rate_limited_world))
  /\ drawn (snd (batch_loop flaky_item 5 [] rate_limited_world)) = 5%nat.
Proof.
  destruct (generate_batch_returns_count_jokes
              5 (Some "tech") 5 5 None unreachable_world)
    as (_ & Hall & jokes & w' & H & Hlen & Hr & Hc).
  destruct (Hc unreachable_world_always_fails) as (Hcan & _ & H5).
  destruct (Hall flaky_item 5%nat rate_limited_world) as [Hrun _].
  split; [|split; [|split]].
  - exists jokes, w'. split; [exact H|]. split; [exact Hlen|].
    split; [exact Hr|]. split; [exact Hcan|]. apply (H5 eq_refl).
  - reflexivity.
  - rewrite Hrun. reflexivity.
  - rewrite Hrun. reflexivity.
Defined.

(** The batch of the specification's scenario, computed. *)
Example generate_batch_5_failing :
  fst (generate_batch 5 (Some "tech") 5 5 None unreachable_world)
  = Ok (replicate 5 "Yo mama so slow, buffering gives up and goes home.").
Proof. vm_compute. reflexivity. Qed.

(* ===================================================================== *)
(** ** random_joke                                                        *)
(* ===================================================================== *)

Lemma randint_3_7 (w : World) :
  exists level, randint 3 7 w = (Ok level, consume_draw w)
    /\ level = (3 + Z.of_nat (entropy w (drawn w) mod 5))%Z
    /\ (3 <= level <= 7)%Z.
Proof.
  exists (3 + Z.of_nat (entropy w (drawn w) mod 5))%Z.
  split; [reflexivity|]. split; [reflexivity|].
  assert (entropy w (drawn w) mod 5 < 5)%nat
    by (apply Nat.mod_upper_bound; discriminate).
  lia.
Qed.

(** C8. [random_joke] hands [generate_joke] a theme that is a member of
    [list_flavors()] and a meanness and a nerdiness that both lie in 3..7;
    the clamp of [generate_joke] leaves such levels as they are. Every
    theme of the list and every pair of levels in 3..7 is handed on for
    some state of the random generator. *)
Theorem random_joke_moderate_levels (w : World) :
  (exists fl meanness nerdiness w',
      random_joke_args w = (Ok (fl, meanness, nerdiness), w')
      /\ random_joke w = generate_joke (Some fl) meanness nerdiness None w'
      /\ fl ∈ list_flavors
      /\ (3 <= meanness <= 7)%Z /\ (3 <= nerdiness <= 7)%Z
      /\ clamp_level meanness = meanness /\ clamp_level nerdiness = nerdiness)
  /\ (forall fl meanness nerdiness,
        fl ∈ list_flavors -> (3 <= meanness <= 7)%Z -> (3 <= nerdiness <= 7)%Z ->
        exists w0, fst (random_joke_args w0) = Ok (fl, meanness, nerdiness)).
Proof.
  split.
  - destruct (random_choice_elem FLAVORS w FLAVORS_nonempty) as (fl & Hfl & Hin).
    destruct (randint_3_7 (consume_draw w)) as (m & Hm & _ & Hmr).
    destruct (randint_3_7 (consume_draw (consume_draw w))) as (n & Hn & _ & Hnr).
    exists fl, m, n, (consume_draw (consume_draw (consume_draw w))).
    assert (Hargs : random_joke_args w
                    = (Ok (fl, m, n), consume_draw (consume_draw (consume_draw w)))).
    { unfold random_joke_args.
      rewrite (bind_ok _ _ _ _ _ Hfl), (bind_ok _ _ _ _ _ Hm), (bind_ok _ _ _ _ _ Hn).
      reflexivity. }
    split; [exact Hargs|].
    split; [unfold random_joke; now rewrite (bind_ok _ _ _ _ _ Hargs)|].
    split; [exact Hin|]. split; [exact Hmr|]. split; [exact Hnr|].
    unfold clamp_level. lia.
  - intros fl m n Hin Hm Hn.
    apply list_elem_of_lookup_1 in Hin as [i Hi].
    pose proof (lookup_lt_Some _ _ _ Hi) as Hlt.
    set (draws := fun k : nat =>
                    match k with
                    | O => i
                    | S O => Z.to_nat (m - 3)
                    | _ => Z.to_nat (n - 3)
                    end).
    set (w0 := {| entropy := draws; drawn := 0;
                  gemini := fun _ _ => Response None; requests := [] |}).
    exists w0.
    destruct (random_choice_ok FLAVORS w0 FLAVORS_nonempty) as (x & Hx & Hlook).
    change (entropy w0 (drawn w0)) with i in Hlook.
    rewrite Nat.mod_small in Hlook by exact Hlt.
    assert (x = fl) as -> by (change list_flavors with FLAVORS in Hi; congruence).
    destruct (randint_3_7 (consume_draw w0)) as (a & Ha & Haeq & _).
    change (entropy (consume_draw w0) (drawn (consume_draw w0)))
      with (Z.to_nat (m - 3)) in Haeq.
    destruct (randint_3_7 (consume_draw (consume_draw w0))) as (b & Hb & Hbeq & _).
    change (entropy (consume_draw (consume_draw w0))
                    (drawn (consume_draw (consume_draw w0))))
      with (Z.to_nat (n - 3)) in Hbeq.
    rewrite Nat.mod_small in Haeq, Hbeq by lia.
    unfold random_joke_args.
    rewrite (bind_ok _ _ _ _ _ Hx), (bind_ok _ _ _ _ _ Ha), (bind_ok _ _ _ _ _ Hb).
    simpl. do 2 f_equal; [f_equal|]; lia.
Qed.

Lemma random_joke_moderate_levels_witness :
  exists w0, fst (random_joke_args w0) = Ok ("thegame", 3%Z, 7%Z).
Proof.
  apply (proj2 (random_joke_moderate_levels rate_limited_world) "thegame" 3%Z 7%Z).
  - apply (bool_decide_eq_true_1 _). vm_compute. reflexivity.
  - lia.
  - lia.
Defined.

(* ===================================================================== *)
(** ** The request for the theme tech at levels 5 and 5                   *)
(* ===================================================================== *)

(** C9. For theme "tech", meanness 5, nerdiness 5 and no target, the
    request is built without a random draw, and its text contains
    "Yo mama so", contains the context phrase of the theme tech, and has
    no brace left in it, so none of the fields of the template is left
    unfilled. *)
Theorem tech_request_text (w : World) :
  exists prompt,
    compose_request (Some "tech") 5 5 None w = (Ok ("tech", prompt), w)
    /\ contains "Yo mama so" prompt = true
    /\ flavor_contexts !! "tech"
       = Some "technology, computers, software, hardware, operating systems, IT support, tech companies"
    /\ contains "technology, computers, software, hardware, operating systems, IT support, tech companies" prompt = true
    /\ contains "THEME/FLAVOR: tech" prompt = true
    /\ contains "{" prompt = false
    /\ contains "}" prompt = false.
Proof.
  eexists. split; [reflexivity|].
  repeat split; vm_compute; reflexivity.
Qed.

(* ===================================================================== *)
(** ** Credential resolution                                              *)
(* ===================================================================== *)

Module SecretsFacts.
Import Secrets.

Lemma found_truthy (secrets : gmap string string) (k value : string) :
  found secrets k = Some value -> truthy value = true.
Proof.
  unfold found. destruct (secrets !! k) as [v|]; [|discriminate].
  destruct (truthy v) eqn:E; [|discriminate]. now intros [= <-].
Qed.

Lemma found_empty (k : string) : found ∅ k = None.
Proof. unfold found. now rewrite lookup_empty. Qed.

Lemma found_some (secrets : gmap string string) (k value : string) :
  secrets !! k = Some value -> value <> EmptyString ->
  found secrets k = Some value.
Proof.
  intros H Hne. unfold found. rewrite H.
  apply truthy_true in Hne. now rewrite Hne.
Qed.

Lemma or_next_truthy (a b : option string) (value : string) :
  (forall v, a = Some v -> truthy v = true) ->
  (forall v, b = Some v -> truthy v = true) ->
  a <|> b = Some value -> truthy value = true.
Proof. destruct a; simpl; eauto. Qed.

Lemma from_doppler_truthy env key env_key prefix value :
  from_doppler env key env_key prefix = Some value -> truthy value = true.
Proof.
  unfold from_doppler.
  destruct (truthy_opt (getenv env "DOPPLER_TOKEN")); [|discriminate].
  apply or_next_truthy.
  - destruct (truthy_opt prefix); [apply found_truthy | discriminate].
  - apply found_truthy.
Qed.

Lemma found_in_truthy (secrets : Payload) (k value : string) :
  found_in secrets k = Returned value -> truthy value = true.
Proof.
  destruct secrets as [fields|strings|text|]; simpl.
  - destruct (found fields k) as [v|] eqn:E; [|discriminate].
    intros [= <-]. eapply found_truthy, E.
  - destruct (bool_decide _); discriminate.
  - destruct (contains k text); discriminate.
  - discriminate.
Qed.

Lemma then_next_truthy (a b : Attempt) (value : string) :
  (forall v, a = Returned v -> truthy v = true) ->
  (forall v, b = Returned v -> truthy v = true) ->
  a <||> b = Returned value -> truthy value = true.
Proof. destruct a; simpl; eauto; discriminate. Qed.

Lemma from_aws_truthy env key env_key name value :
  from_aws env key env_key name = Returned value -> truthy value = true.
Proof.
  unfold from_aws. destruct name as [n|]; [|discriminate].
  destruct (_ && _); [|discriminate].
  apply then_next_truthy; apply found_in_truthy.
Qed.

Lemma from_vault_truthy env key env_key path value :
  from_vault env key env_key path = Returned value -> truthy value = true.
Proof.
  unfold from_vault. destruct path as [p|]; [|discriminate].
  destruct (_ && _); [|discriminate].
  apply then_next_truthy; apply found_in_truthy.
Qed.

Lemma from_environment_truthy env env_key value :
  from_environment env env_key = Some value -> truthy value = true.
Proof.
  unfold from_environment. destruct (getenv env env_key) as [v|]; [|discriminate].
  destruct (truthy v) eqn:E; [|discriminate]. now intros [= <-].
Qed.

Lemma found_in_empty (k : string) : found_in (Object ∅) k = Passed.
Proof. simpl. now rewrite found_empty. Qed.

Lemma load_doppler_unavailable env name :
  doppler_unavailable env -> load_secrets_from_doppler env name = ∅.
Proof.
  unfold load_secrets_from_doppler.
  intros [-> | (sdk & -> & Hsdk)]; [reflexivity|].
  destruct (getenv env "DOPPLER_TOKEN") as [token|]; [|reflexivity].
  destruct (negb (truthy token)); [reflexivity|].
  destruct (sdk token _ _) as [secrets| | |] eqn:E; try reflexivity.
  now apply Hsdk in E.
Qed.

Lemma load_aws_unavailable env name :
  aws_unavailable env -> load_secrets_from_aws env name = Object ∅.
Proof.
  unfold load_secrets_from_aws.
  intros [-> | (c & -> & Hc)]; [reflexivity|]. now rewrite Hc.
Qed.

Lemma load_vault_unavailable env path :
  vault_unavailable env -> load_secrets_from_vault env path = Object ∅.
Proof.
  unfold load_secrets_from_vault.
  intros [-> | (mk & -> & Hmk)]; [reflexivity|].
  destruct (getenv env "SECRETS_VAULT_URL") as [url|]; [|reflexivity].
  destruct (getenv env "SECRETS_VAULT_TOKEN") as [token|]; [|reflexivity].
  destruct (negb (truthy url) || negb (truthy token)); [reflexivity|].
  specialize (Hmk url token).
  destruct (mk url token) as [client|]; [|reflexivity].
  destruct Hmk as [-> | Hread]; [reflexivity|].
  destruct (negb (is_authenticated client)); [reflexivity|].
  now rewrite Hread.
Qed.

Lemma from_doppler_unavailable env key env_key prefix :
  doppler_unavailable env -> from_doppler env key env_key prefix = None.
Proof.
  intros H. unfold from_doppler.
  rewrite !(load_doppler_unavailable _ _ H), !found_empty.
  destruct (truthy_opt _), (truthy_opt prefix); reflexivity.
Qed.

Lemma from_aws_unavailable env key env_key name :
  aws_unavailable env -> from_aws env key env_key name = Passed.
Proof.
  intros H. unfold from_aws. destruct name as [n|]; [|reflexivity].
  rewrite (load_aws_unavailable _ _ H), !found_in_empty.
  destruct (_ && _); reflexivity.
Qed.

Lemma from_vault_unavailable env key env_key path :
  vault_unavailable env -> from_vault env key env_key path = Passed.
Proof.
  intros H. unfold from_vault. destruct path as [p|]; [|reflexivity].
  rewrite (load_vault_unavailable _ _ H), !found_in_empty.
  destruct (_ && _); reflexivity.
Qed.

Lemma hosted_broken_unavailable :
  doppler_unavailable hosted_broken /\ aws_unavailable hosted_broken
  /\ vault_unavailable hosted_broken.
Proof.
  split; [|split].
  - right. eexists. split; [reflexivity|]. discriminate.
  - left. reflexivity.
  - left. reflexivity.
Qed.

(** C7, at the input where the code leaves the ranking. Doppler offers
    nothing, AWS is selected, and the secret string loaded from AWS is
    not a JSON object: it is a number, a boolean or null, or it is an
    array or a string that contains the lower-cased key.
    [load_secrets_from_aws] returns it as it is, the membership test or
    the subscript of [get_secret] raises [TypeError], and the clause
    [except Exception] returns the default: neither Vault nor the
    environment is read, whatever they hold. *)
Theorem get_secret_malformed_payload_skips_environment
    (env : Env) (key : string) (platform default : option string)
    (name : string) (vault prefix : option string) :
  from_doppler env key (env_key_of key platform) prefix = None ->
  lower (getenv_or env "SECRETS_MANAGER" "none") = "aws" ->
  name <> EmptyString ->
  (load_secrets_from_aws env name = Scalar
   \/ (exists strings, load_secrets_from_aws env name = Array strings
                       /\ lower key ∈ strings)
   \/ (exists text, load_secrets_from_aws env name = Text text
                    /\ contains (lower key) text = true)) ->
  from_aws env key (env_key_of key platform) (Some name) = RaisedTypeError
  /\ get_secret env key platform default (Some name) vault prefix = default.
Proof.
  intros Hd Hm Hn Hp.
  assert (Haws : from_aws env key (env_key_of key platform) (Some name)
                 = RaisedTypeError).
  { unfold from_aws. rewrite Hm. apply truthy_true in Hn. rewrite Hn. simpl.
    destruct Hp as [-> | [(strings & -> & Hin) | (text & -> & Hin)]]; simpl.
    - reflexivity.
    - now rewrite (bool_decide_eq_true_2 _ Hin).
    - now rewrite Hin. }
  split; [exact Haws|].
  unfold get_secret. rewrite Hd, Haws. reflexivity.
Qed.

Lemma get_secret_malformed_payload_skips_environment_witness :
  from_environment numeric_aws_secret "GEMINI_API_KEY" = Some "local-key"
  /\ from_aws numeric_aws_secret "GEMINI_API_KEY" "GEMINI_API_KEY" (Some "prod/app")
     = RaisedTypeError
  /\ get_secret numeric_aws_secret "GEMINI_API_KEY" None None (Some "prod/app")
                None None = None.
Proof.
  split; [reflexivity|].
  apply (get_secret_malformed_payload_skips_environment
           numeric_aws_secret "GEMINI_API_KEY" None None "prod/app" None None).
  - reflexivity.
  - reflexivity.
  - discriminate.
  - left. reflexivity.
Defined.

(** The same lookup with the empty JSON object as the secret string goes
    on to the environment. *)
Example get_secret_empty_object_reads_environment :
  get_secret
    {| environ := environ numeric_aws_secret; dopplersdk := NotInstalled;
       boto3 := Installed (fun _ => Some (Object ∅)); hvac := NotInstalled |}
    "GEMINI_API_KEY" None None (Some "prod/app") None None
  = Some "local-key".
Proof. reflexivity. Qed.

End SecretsFacts.

(* ===================================================================== *)
(** ** Further properties of the generator                                *)
(* ===================================================================== *)

Lemma nerdiness_guide_only (level : Z) :
  is_Some (nerdiness_guide !! level) -> (1 <= level <= 10)%Z.
Proof.
  intros [phrase H]. apply elem_of_list_to_map_2 in H.
  repeat (apply elem_of_cons in H as [H | H]; [inversion H; lia|]).
  inversion H.
Qed.

Lemma subscript_raises (guide : gmap Z string) (level : Z) :
  ~ is_Some (guide !! level) -> subscript guide level = Raised (KeyError level).
Proof.
  unfold subscript. destruct (guide !! level) as [p|]; [|reflexivity].
  intros H. exfalso. apply H. eauto.
Qed.

(** X1. [_build_prompt] succeeds exactly when both levels are in 1..10.
    A meanness outside 1..10 raises [KeyError] on the meanness, whatever
    the nerdiness is; with the meanness in range, a nerdiness outside
    1..10 raises [KeyError] on the nerdiness. *)
Theorem build_prompt_key_errors
    (flavor : string) (meanness nerdiness : Z) (target_name : option string) :
  ((exists prompt, _build_prompt flavor meanness nerdiness target_name = Ok prompt)
   <-> (1 <= meanness <= 10)%Z /\ (1 <= nerdiness <= 10)%Z)
  /\ (~ (1 <= meanness <= 10)%Z ->
      _build_prompt flavor meanness nerdiness target_name
      = Raised (KeyError meanness))
  /\ ((1 <= meanness <= 10)%Z -> ~ (1 <= nerdiness <= 10)%Z ->
      _build_prompt flavor meanness nerdiness target_name
      = Raised (KeyError nerdiness)).
Proof.
  assert (Hm : ~ (1 <= meanness <= 10)%Z ->
               _build_prompt flavor meanness nerdiness target_name
               = Raised (KeyError meanness)).
  { intros Hout. unfold _build_prompt.
    rewrite (subscript_raises meanness_guide meanness); [reflexivity|].
    intros H. apply Hout, meanness_guide_only, H. }
  assert (Hn : (1 <= meanness <= 10)%Z -> ~ (1 <= nerdiness <= 10)%Z ->
               _build_prompt flavor meanness nerdiness target_name
               = Raised (KeyError nerdiness)).
  { intros Hin Hout. unfold _build_prompt.
    destruct (meanness_guide_total meanness Hin) as [pm ->].
    rewrite (subscript_raises nerdiness_guide nerdiness); [reflexivity|].
    intros H. apply Hout, nerdiness_guide_only, H. }
  split; [|split; assumption].
  split.
  - intros [prompt Hp].
    destruct (decide (1 <= meanness <= 10)%Z) as [Hmr|Hmr];
      [|rewrite (Hm Hmr) in Hp; discriminate].
    destruct (decide (1 <= nerdiness <= 10)%Z) as [Hnr|Hnr];
      [|rewrite (Hn Hmr Hnr) in Hp; discriminate].
    split; assumption.
  - intros [Hmr Hnr]. now apply build_prompt_in_range.
Qed.

Lemma build_prompt_key_errors_witness :
  _build_prompt "tech" 11 0 None = Raised (KeyError 11)
  /\ _build_prompt "tech" 10 0 None = Raised (KeyError 0).
Proof.
  split.
  - apply (proj1 (proj2 (build_prompt_key_errors "tech" 11 0 None))). lia.
  - apply (proj2 (proj2 (build_prompt_key_errors "tech" 10 0 None))); lia.
Defined.

Lemma clamp_level_idem (level : Z) : clamp_level (clamp_level level) = clamp_level level.
Proof. unfold clamp_level. lia. Qed.

(** X2. A call sees the two levels only through the clamp: with the
    levels replaced by their clamped values, [generate_joke] builds the
    same request and gives the same result in every world. So 11 acts as
    10 and 0 as 1. *)
Theorem levels_only_matter_clamped
    (flavor : option string) (meanness nerdiness : Z)
    (target_name : option string) (w : World) :
  compose_request flavor meanness nerdiness target_name w
  = compose_request flavor (clamp_level meanness) (clamp_level nerdiness)
                    target_name w
  /\ generate_joke flavor meanness nerdiness target_name w
     = generate_joke flavor (clamp_level meanness) (clamp_level nerdiness)
                     target_name w.
Proof.
  assert (H : compose_request flavor meanness nerdiness target_name
              = compose_request flavor (clamp_level meanness)
                                (clamp_level nerdiness) target_name).
  { unfold compose_request. now rewrite !clamp_level_idem. }
  split; [now rewrite H|].
  unfold generate_joke. now rewrite H.
Qed.

Lemma lower_fixes_FLAVORS (f : string) : f ∈ FLAVORS -> lower f = f.
Proof.
  intros H.
  repeat (apply elem_of_cons in H as [-> | H]; [reflexivity|]).
  inversion H.
Qed.

Lemma flavor_contexts_covers (f : string) :
  f ∈ FLAVORS -> is_Some (flavor_contexts !! f).
Proof.
  intros H.
  repeat (apply elem_of_cons in H as [-> | H]; [vm_compute; eauto|]).
  inversion H.
Qed.

(** X3. The catalogue is usable as it is listed: [list_flavors()] has no
    duplicate, and each flavor it lists is accepted by [generate_joke]
    unchanged (no draw is made, the theme is the flavor itself) and has a
    context phrase of its own in [_build_prompt]. *)
Theorem listed_flavors_are_accepted :
  NoDup list_flavors
  /\ forall f, f ∈ list_flavors ->
       (forall w, resolve_flavor (Some f) w = (Ok f, w))
       /\ is_Some (flavor_contexts !! f).
Proof.
  split.
  - apply (bool_decide_eq_true_1 _). vm_compute. reflexivity.
  - intros f Hin. change list_flavors with FLAVORS in Hin. split.
    + intros w. pose proof (lower_fixes_FLAVORS f Hin) as Hl.
      rewrite <- Hl at 2. apply resolve_flavor_known. now rewrite Hl.
    + now apply flavor_contexts_covers.
Qed.

Lemma listed_flavors_are_accepted_witness :
  (forall w, resolve_flavor (Some "radio") w = (Ok "radio", w))
  /\ is_Some (flavor_contexts !! "radio").
Proof.
  apply (proj2 listed_flavors_are_accepted "radio").
  apply (bool_decide_eq_true_1 _). vm_compute. reflexivity.
Defined.

Lemma resolve_flavor_member (flavor : option string) (w w' : World) (fl : string) :
  flavor <> Some EmptyString ->
  resolve_flavor flavor w = (Ok fl, w') -> fl ∈ FLAVORS.
Proof.
  intros Hne H.
  destruct (random_choice_elem FLAVORS w FLAVORS_nonempty) as (x & Hx & Hin).
  destruct flavor as [f|].
  - destruct (decide (lower f ∈ FLAVORS)) as [Hl|Hl].
    + rewrite (resolve_flavor_known f w Hl) in H. now inversion H; subst.
    + assert (Hf : f <> EmptyString) by congruence.
      rewrite (resolve_flavor_unknown f w Hf Hl), Hx in H. now inversion H; subst.
  - rewrite resolve_flavor_absent, Hx in H. now inversion H; subst.
Qed.

(** X4. The stand-in context "general technology" of [_build_prompt] is
    used by [generate_joke] for one theme input only, the empty string:
    the theme of a request has no context phrase of its own exactly when
    the theme given was the empty string. *)
Theorem default_context_only_for_empty_theme
    (flavor : option string) (meanness nerdiness : Z)
    (target_name : option string) (w w' : World) (fl prompt : string) :
  compose_request flavor meanness nerdiness target_name w = (Ok (fl, prompt), w') ->
  (flavor_contexts !! fl = None <-> flavor = Some EmptyString).
Proof.
  intros Hc.
  destruct (compose_request_total flavor meanness nerdiness target_name w)
    as (fl' & prompt' & w1 & Hc' & Hfl & _).
  rewrite Hc in Hc'. inversion Hc'; subst fl' prompt' w1. split.
  - intros Hnone. destruct (decide (flavor = Some EmptyString)) as [|Hne]; [assumption|].
    pose proof (resolve_flavor_member flavor w w' fl Hne Hfl) as Hin.
    apply flavor_contexts_covers in Hin. rewrite Hnone in Hin.
    destruct Hin as [? Hin]. discriminate.
  - intros ->. rewrite resolve_flavor_empty in Hfl. inversion Hfl; subst.
    reflexivity.
Qed.

Lemma default_context_only_for_empty_theme_witness :
  flavor_contexts !! EmptyString = None <-> Some EmptyString = Some EmptyString.
Proof.
  apply (default_context_only_for_empty_theme
           (Some EmptyString) 5 5 None rate_limited_world rate_limited_world
           EmptyString
           (prompt_template "" "general technology" 5
              "balanced roasting, noticeable but not harsh" 5
              "use technical jargon that tech-savvy people know" "yo mama")).
  reflexivity.
Defined.

(** The run of one call, with the world it ends in: the theme costs a
    draw unless it was given and kept, the request is sent once, and the
    rate-limit joke costs one more draw. *)
Lemma generate_joke_run (flavor : option string) (meanness nerdiness : Z)
    (target_name : option string) (w : World) :
  exists fl prompt w1 joke w',
    compose_request flavor meanness nerdiness target_name w = (Ok (fl, prompt), w1)
    /\ (w1 = w \/ w1 = consume_draw w)
    /\ generate_joke flavor meanness nerdiness target_name w = (Ok joke, w')
    /\ let outcome := gemini w (length (requests w)) prompt in
       (if throttled outcome
        then w' = consume_draw (record_request prompt w1) /\ joke ∈ rate_limit_jokes
        else w' = record_request prompt w1
             /\ joke = match outcome with
                       | Response (Some text) => strip text
                       | _ => _get_fallback_joke fl
                       end).
Proof.
  destruct (compose_request_total flavor meanness nerdiness target_name w)
    as (fl & prompt & w1 & Hc & Hfl & _ & Hg & Hr).
  assert (Hw1 : w1 = w \/ w1 = consume_draw w).
  { destruct (random_choice_elem FLAVORS w FLAVORS_nonempty) as (x & Hx & _).
    destruct flavor as [f|].
    - destruct (decide (lower f ∈ FLAVORS)) as [Hl|Hl].
      + rewrite (resolve_flavor_known f w Hl) in Hfl. inversion Hfl. now left.
      + destruct f as [|c f].
        * rewrite resolve_flavor_empty in Hfl. inversion Hfl. now left.
        * rewrite (resolve_flavor_unknown _ w) in Hfl by (auto || discriminate).
          rewrite Hx in Hfl. inversion Hfl. now right.
    - rewrite resolve_flavor_absent, Hx in Hfl. inversion Hfl. now right. }
  pose proof (generate_joke_step _ _ _ _ _ _ _ _ Hc) as Hstep.
  rewrite Hg, Hr in Hstep.
  assert (Hh : forall msg,
    exists joke w', on_exception msg fl (record_request prompt w1) = (Ok joke, w')
      /\ (if is_rate_limit msg
          then w' = consume_draw (record_request prompt w1) /\ joke ∈ rate_limit_jokes
          else w' = record_request prompt w1 /\ joke = _get_fallback_joke fl)).
  { intros msg. unfold on_exception. destruct (is_rate_limit msg).
    - destruct (random_choice_elem rate_limit_jokes (record_request prompt w1)
                  rate_limit_jokes_nonempty) as (x & Hx & Hin).
      exists x, (consume_draw (record_request prompt w1)). auto.
    - eexists _, _. split; [reflexivity|]. split; reflexivity. }
  destruct (gemini w (length (requests w)) prompt) as [[text|]|msg] eqn:E.
  - exists fl, prompt, w1, (strip text), (record_request prompt w1).
    rewrite Hstep. cbn. rewrite E. cbn. repeat split; auto.
  - destruct (Hh none_strip_error) as (joke & w' & H & Hcase).
    exists fl, prompt, w1, joke, w'. rewrite Hstep, H. cbn. rewrite E. cbn.
    change (is_rate_limit none_strip_error) with false in Hcase.
    cbv beta iota in Hcase. repeat split; try tauto; auto.
  - destruct (Hh msg) as (joke & w' & H & Hcase).
    exists fl, prompt, w1, joke, w'. rewrite Hstep, H. cbn. rewrite E. cbn.
    destruct (is_rate_limit msg); repeat split; try tauto; auto.
Qed.

Lemma request_text_of_compose (flavor : option string) (meanness nerdiness : Z)
    (target_name : option string) (w w1 : World) (fl prompt : string) :
  compose_request flavor meanness nerdiness target_name w = (Ok (fl, prompt), w1) ->
  request_text flavor meanness nerdiness target_name w = Ok prompt.
Proof. intros H. unfold request_text. now rewrite H. Qed.

(** X5. The only way for [generate_joke] to return the empty string is a
    successful response whose text is blank: the joke returned is empty
    exactly when the service answered the request with a text that
    [strip()] reduces to nothing. *)
Theorem empty_joke_only_from_blank_response
    (flavor : option string) (meanness nerdiness : Z)
    (target_name : option string) (w w' : World) (joke : string) :
  generate_joke flavor meanness nerdiness target_name w = (Ok joke, w') ->
  (joke = EmptyString <->
   exists prompt text,
     request_text flavor meanness nerdiness target_name w = Ok prompt
     /\ gemini w (length (requests w)) prompt = Response (Some text)
     /\ strip text = EmptyString).
Proof.
  intros Hj.
  destruct (generate_joke_run flavor meanness nerdiness target_name w)
    as (fl & prompt & w1 & joke' & w'' & Hc & _ & Hj' & Hcase).
  rewrite Hj in Hj'. inversion Hj'; subst joke' w''. cbv zeta in Hcase.
  pose proof (request_text_of_compose _ _ _ _ _ _ _ _ Hc) as Hreq.
  split.
  - intros ->.
    destruct (gemini w (length (requests w)) prompt) as [[text|]|msg] eqn:E; cbn in Hcase.
    + destruct Hcase as [_ Hs]. exists prompt, text. auto.
    + destruct Hcase as [_ Hs]. symmetry in Hs.
      now apply get_fallback_joke_non_empty in Hs.
    + destruct (is_rate_limit msg).
      * destruct Hcase as [_ Hin]. now apply rate_limit_jokes_non_empty in Hin.
      * destruct Hcase as [_ Hs]. symmetry in Hs.
        now apply get_fallback_joke_non_empty in Hs.
  - intros (prompt' & text & Hreq' & Hresp & Hstrip).
    rewrite Hreq in Hreq'. inversion Hreq'; subst prompt'.
    rewrite Hresp in Hcase. cbn in Hcase. destruct Hcase as [_ ->]. exact Hstrip.
Qed.

(** X6. A response that carries no text ([response.text] is [None]) is
    handled like a failure that is not a throttling one: the call returns
    the fallback joke of its theme, and makes no draw for it. *)
Theorem response_without_text_returns_fallback
    (flavor : option string) (meanness nerdiness : Z)
    (target_name : option string) (w : World) :
  (forall prompt, gemini w (length (requests w)) prompt = Response None) ->
  exists fl prompt w1,
    compose_request flavor meanness nerdiness target_name w = (Ok (fl, prompt), w1)
    /\ generate_joke flavor meanness nerdiness target_name w
       = (Ok (_get_fallback_joke fl), record_request prompt w1).
Proof.
  intros Hnone.
  destruct (generate_joke_run flavor meanness nerdiness target_name w)
    as (fl & prompt & w1 & joke & w' & Hc & _ & Hj & Hcase).
  cbv zeta in Hcase. rewrite Hnone in Hcase. cbn in Hcase.
  destruct Hcase as [-> ->]. exists fl, prompt, w1. split; assumption.
Qed.

(** A service that answers every request with a response without text. *)
Lemma response_without_text_returns_fallback_witness :
  exists fl prompt w1,
    compose_request (Some "gaming") 5 5 None
      {| entropy := fun i => i; drawn := 0;
         gemini := fun _ _ => Response None; requests := [] |}
    = (Ok (fl, prompt), w1)
    /\ generate_joke (Some "gaming") 5 5 None
         {| entropy := fun i => i; drawn := 0;
            gemini := fun _ _ => Response None; requests := [] |}
       = (Ok (_get_fallback_joke fl), record_request prompt w1).
Proof.
  apply (response_without_text_returns_fallback (Some "gaming") 5 5 None).
  intros prompt. reflexivity.
Defined.

Lemma rate_limit_jokes_mention_throttling (joke : string) :
  joke ∈ rate_limit_jokes -> mentions_throttling joke = true.
Proof.
  intros H.
  repeat (apply elem_of_cons in H as [-> | H]; [vm_compute; reflexivity|]).
  inversion H.
Qed.

(** X7. After a throttling failure the joke returned passes the check of
    the repository's own test: its lower-casing contains "rate limit" or
    "quota". This holds for each of the six jokes, so for every draw. *)
Theorem throttling_joke_mentions_throttling
    (flavor : option string) (meanness nerdiness : Z)
    (target_name : option string) (w w' : World) (msg joke : string) :
  (forall prompt, gemini w (length (requests w)) prompt = Failure msg) ->
  is_rate_limit msg = true ->
  generate_joke flavor meanness nerdiness target_name w = (Ok joke, w') ->
  mentions_throttling joke = true.
Proof.
  intros Hfail Hmsg Hj.
  destruct (generate_joke_run flavor meanness nerdiness target_name w)
    as (fl & prompt & w1 & joke' & w'' & _ & _ & Hj' & Hcase).
  rewrite Hj in Hj'. inversion Hj'; subst joke' w''.
  cbv zeta in Hcase. rewrite Hfail in Hcase. cbn in Hcase. rewrite Hmsg in Hcase.
  apply rate_limit_jokes_mention_throttling, Hcase.
Qed.

Lemma throttling_joke_mentions_throttling_witness :
  mentions_throttling
    "Yo mama hitting this API so hard, even Google told her to slow down! 🚦 (Rate limit exceeded, try again in a minute)"
  = true.
Proof.
  apply (throttling_joke_mentions_throttling
           (Some "tech") 5 5 None rate_limited_world
           (consume_draw
              (record_request
                 (prompt_template "tech"
                    "technology, computers, software, hardware, operating systems, IT support, tech companies"
                    5 "balanced roasting, noticeable but not harsh" 5
                    "use technical jargon that tech-savvy people know" "yo mama")
                 rate_limited_world))
           "API Error: Rate limit exceeded (429)").
  - intros prompt. reflexivity.
  - reflexivity.
  - reflexivity.
Defined.

(** X8. What one call of [generate_joke] does to the world: it sends one
    request, the text built for its inputs, and never a second one; it
    leaves the service and the stream of raw draws as they are; and it
    consumes at most two draws, none at all when the theme is recognised
    and the answer does not lead to a rate-limit joke. *)
Theorem generate_joke_effects
    (flavor : option string) (meanness nerdiness : Z)
    (target_name : option string) (w w' : World) (joke : string) :
  generate_joke flavor meanness nerdiness target_name w = (Ok joke, w') ->
  exists prompt,
    request_text flavor meanness nerdiness target_name w = Ok prompt
    /\ requests w' = requests w ++ [prompt]
    /\ gemini w' = gemini w
    /\ entropy w' = entropy w
    /\ (drawn w <= drawn w' <= drawn w + 2)%nat
    /\ (recognised flavor ->
        throttled (gemini w (length (requests w)) prompt) = false ->
        drawn w' = drawn w).
Proof.
  intros Hj.
  destruct (generate_joke_run flavor meanness nerdiness target_name w)
    as (fl & prompt & w1 & joke' & w'' & Hc & Hw1 & Hj' & Hcase).
  rewrite Hj in Hj'. inversion Hj'; subst joke' w''. cbv zeta in Hcase.
  exists prompt. split; [eapply request_text_of_compose; eassumption|].
  assert (Hrec : recognised flavor -> w1 = w).
  { intros (f & -> & Hin).
    unfold compose_request in Hc.
    rewrite (bind_ok _ _ _ _ _ (resolve_flavor_known f w Hin)) in Hc.
    unfold bind, lift, ret in Hc.
    destruct (_build_prompt _ _ _ _); now inversion Hc. }
  destruct (throttled (gemini w (length (requests w)) prompt)).
  - destruct Hcase as [-> _].
    destruct Hw1 as [-> | ->]; cbn; repeat split; try lia; discriminate.
  - destruct Hcase as [-> _].
    destruct Hw1 as [-> | ->]; cbn; repeat split; try lia.
    intros Hr _. apply Hrec in Hr.
    assert (Hd : drawn (consume_draw w) = drawn w) by now rewrite Hr.
    cbn in Hd. lia.
Qed.

Lemma generate_joke_effects_witness :
  exists prompt,
    request_text (Some "Linux") 5 5 None unreachable_world = Ok prompt
    /\ requests (record_request
                   (prompt_template "linux"
                      "Linux, Unix, open source, command line, distros, kernel, bash, system administration, package managers"
                      5 "balanced roasting, noticeable but not harsh" 5
                      "use technical jargon that tech-savvy people know" "yo mama")
                   unreachable_world)
       = requests unreachable_world ++ [prompt].
Proof.
  destruct (generate_joke_effects (Some "Linux") 5 5 None unreachable_world
              (record_request
                 (prompt_template "linux"
                    "Linux, Unix, open source, command line, distros, kernel, bash, system administration, package managers"
                    5 "balanced roasting, noticeable but not harsh" 5
                    "use technical jargon that tech-savvy people know" "yo mama")
                 unreachable_world)
              "Yo mama so bloated, even apt-get couldn't remove her dependencies."
              eq_refl) as (prompt & H1 & H2 & _).
  exists prompt. split; assumption.
Defined.

Lemma empty_joke_only_from_blank_response_witness :
  EmptyString = EmptyString <->
  exists prompt text,
    request_text (Some "tech") 5 5 None
      {| entropy := fun i => i; drawn := 0;
         gemini := fun _ _ => Response (Some "  "); requests := [] |} = Ok prompt
    /\ Response (Some "  ") = Response (Some text)
    /\ strip text = EmptyString.
Proof.
  apply (empty_joke_only_from_blank_response (Some "tech") 5 5 None
           {| entropy := fun i => i; drawn := 0;
              gemini := fun _ _ => Response (Some "  "); requests := [] |}
           (record_request
              (prompt_template "tech"
                 "technology, computers, software, hardware, operating systems, IT support, tech companies"
                 5 "balanced roasting, noticeable but not harsh" 5
                 "use technical jargon that tech-savvy people know" "yo mama")
              {| entropy := fun i => i; drawn := 0;
                 gemini := fun _ _ => Response (Some "  "); requests := [] |})
           EmptyString).
  reflexivity.
Defined.

(* ===================================================================== *)
(** ** Further properties of batches and of random jokes                  *)
(* ===================================================================== *)

Lemma batch_loop_acc (item : M string) (n : nat) (jokes : list string) (w : World) :
  batch_loop item n jokes w
  = (jokes ++ fst (batch_loop item n [] w), snd (batch_loop item n [] w)).
Proof.
  revert jokes w. induction n as [|n IH]; intros jokes w; simpl.
  - now rewrite app_nil_r.
  - destruct (item w) as [[joke|e] w1].
    + rewrite (IH (jokes ++ [joke])), (IH [joke]). simpl.
      now rewrite <- app_assoc.
    + apply IH.
Qed.

Lemma batch_loop_add (item : M string) (a b : nat) (jokes : list string) (w : World) :
  batch_loop item (a + b) jokes w
  = batch_loop item b (fst (batch_loop item a jokes w))
                      (snd (batch_loop item a jokes w)).
Proof.
  revert jokes w. induction a as [|a IH]; intros jokes w; simpl.
  - reflexivity.
  - destruct (item w) as [[joke|e] w1]; apply IH.
Qed.

(** X9. Batches compose: a batch of [a + b] jokes is a batch of [a]
    followed, in the world the first one leaves, by a batch of [b] with the
    same arguments; the result is the two lists one after the other. *)
Theorem generate_batch_splits
    (a b : Z) (flavor : option string) (meanness nerdiness : Z)
    (target_name : option string) (w w1 w2 : World) (ja jb : list string) :
  (0 <= a)%Z -> (0 <= b)%Z ->
  generate_batch a flavor meanness nerdiness target_name w = (Ok ja, w1) ->
  generate_batch b flavor meanness nerdiness target_name w1 = (Ok jb, w2) ->
  generate_batch (a + b) flavor meanness nerdiness target_name w
  = (Ok (ja ++ jb), w2).
Proof.
  intros Ha Hb H1 H2. unfold generate_batch in *.
  rewrite Z2Nat.inj_add by assumption. rewrite batch_loop_add.
  destruct (batch_loop _ (Z.to_nat a) [] w) as [ja' w1'] eqn:E1.
  inversion H1; subst ja' w1'. simpl.
  rewrite batch_loop_acc.
  destruct (batch_loop _ (Z.to_nat b) [] w1) as [jb' w2'] eqn:E2.
  inversion H2; subst jb' w2'. reflexivity.
Qed.

Lemma generate_batch_splits_witness :
  generate_batch (2 + 1) (Some "tech") 5 5 None unreachable_world
  = (Ok (fst (batch_loop (generate_joke (Some "tech") 5 5 None) 2 [] unreachable_world)
         ++ fst (batch_loop (generate_joke (Some "tech") 5 5 None) 1 []
                   (snd (batch_loop (generate_joke (Some "tech") 5 5 None) 2 []
                           unreachable_world)))),
     snd (batch_loop (generate_joke (Some "tech") 5 5 None) 1 []
            (snd (batch_loop (generate_joke (Some "tech") 5 5 None) 2 []
                    unreachable_world)))).
Proof.
  apply (generate_batch_splits 2 1 (Some "tech") 5 5 None unreachable_world
           (snd (batch_loop (generate_joke (Some "tech") 5 5 None) 2 []
                   unreachable_world))).
  - lia.
  - lia.
  - reflexivity.
  - reflexivity.
Defined.

(** X10. The jokes of a batch come in the order of the calls: when the
    service answers its [k]-th call with the text [reply k], whatever the
    request, the batch is the list of the stripped replies of the calls
    made, from the first call of the batch on. *)
Theorem generate_batch_keeps_order
    (count : Z) (flavor : option string) (meanness nerdiness : Z)
    (target_name : option string) (w : World) (reply : nat -> string) :
  (forall k prompt, gemini w k prompt = Response (Some (reply k))) ->
  fst (generate_batch count flavor meanness nerdiness target_name w)
  = Ok (map (fun k => strip (reply k))
            (seq (length (requests w)) (Z.to_nat count))).
Proof.
  intros Hreply. unfold generate_batch.
  destruct (batch_loop _ (Z.to_nat count) [] w) as [jokes w'] eqn:E. simpl.
  f_equal. change jokes with (fst (jokes, w')). rewrite <- E. clear E jokes w'.
  generalize (Z.to_nat count) as n. intros n. revert w Hreply.
  induction n as [|n IH]; intros w Hreply; [reflexivity|].
  cbn [batch_loop seq map].
  destruct (generate_joke_run flavor meanness nerdiness target_name w)
    as (fl & prompt & w1 & joke & w' & _ & _ & Hj & Hcase).
  destruct (generate_joke_total flavor meanness nerdiness target_name w)
    as (joke' & w'' & prompt' & Hj' & Hg & Hr & _).
  rewrite Hj in Hj'. inversion Hj'; subst joke' w''.
  cbv zeta in Hcase. rewrite Hreply in Hcase. cbn in Hcase.
  destruct Hcase as [_ ->]. rewrite Hj, batch_loop_acc. cbn [fst app].
  f_equal. rewrite IH.
  - rewrite Hr, length_app. simpl. now rewrite Nat.add_1_r.
  - intros k p. rewrite Hg. apply Hreply.
Qed.

Lemma generate_batch_keeps_order_witness :
  fst (generate_batch 3 None 5 5 None
         {| entropy := fun i => i; drawn := 0;
            gemini := fun k _ => Response (Some (String (ascii_of_nat (65 + k)) " "));
            requests := [] |})
  = Ok (map (fun k => strip (String (ascii_of_nat (65 + k)) " ")) (seq 0 3)).
Proof.
  apply (generate_batch_keeps_order 3 None 5 5 None
           {| entropy := fun i => i; drawn := 0;
              gemini := fun k _ => Response (Some (String (ascii_of_nat (65 + k)) " "));
              requests := [] |}
           (fun k => String (ascii_of_nat (65 + k)) " ")).
  intros k prompt. reflexivity.
Defined.

(** X11. The request of [random_joke] shows what was drawn: three draws
    are made, the drawn flavor is kept as the theme with no further draw,
    and the prompt is built from the drawn levels themselves. *)
Theorem random_joke_request_shows_draws (w : World) :
  exists fl meanness nerdiness w3 prompt,
    random_joke_args w = (Ok (fl, meanness, nerdiness), w3)
    /\ drawn w3 = (drawn w + 3)%nat
    /\ compose_request (Some fl) meanness nerdiness None w3 = (Ok (fl, prompt), w3)
    /\ _build_prompt fl meanness nerdiness None = Ok prompt.
Proof.
  destruct (random_choice_elem FLAVORS w FLAVORS_nonempty) as (fl & Hfl & Hin).
  destruct (randint_3_7 (consume_draw w)) as (m & Hm & _ & Hmr).
  destruct (randint_3_7 (consume_draw (consume_draw w))) as (n & Hn & _ & Hnr).
  set (w3 := consume_draw (consume_draw (consume_draw w))).
  destruct (compose_request_total (Some fl) m n None w3)
    as (fl' & prompt & w4 & Hc & Hres & Hp & _).
  pose proof (lower_fixes_FLAVORS fl Hin) as Hl.
  assert (Hk : lower fl ∈ FLAVORS) by now rewrite Hl.
  rewrite (resolve_flavor_known fl w3 Hk), Hl in Hres.
  inversion Hres; subst fl' w4.
  exists fl, m, n, w3, prompt.
  split; [|split; [|split]].
  - unfold random_joke_args.
    rewrite (bind_ok _ _ _ _ _ Hfl), (bind_ok _ _ _ _ _ Hm), (bind_ok _ _ _ _ _ Hn).
    reflexivity.
  - simpl. lia.
  - exact Hc.
  - replace (clamp_level m) with m in Hp by (unfold clamp_level; lia).
    replace (clamp_level n) with n in Hp by (unfold clamp_level; lia).
    exact Hp.
Qed.

(* ===================================================================== *)
(** ** The subject of the prompt                                          *)
(* ===================================================================== *)

Lemma contains_skip (pat x s : string) :
  contains pat s = true -> contains pat (x +:+ s) = true.
Proof.
  rewrite !contains_spec. intros (a & c & ->).
  exists (x +:+ a), c. now rewrite app_assoc_str.
Qed.

Lemma contains_here (pat c : string) : contains pat (pat +:+ c) = true.
Proof. apply contains_spec. exists EmptyString, c. reflexivity. Qed.

Lemma contains_here_4 (p1 p2 p3 p4 c : string) :
  contains (p1 +:+ p2 +:+ p3 +:+ p4) (p1 +:+ p2 +:+ p3 +:+ p4 +:+ c) = true.
Proof.
  replace (p1 +:+ p2 +:+ p3 +:+ p4 +:+ c) with ((p1 +:+ p2 +:+ p3 +:+ p4) +:+ c)
    by now rewrite !app_assoc_str.
  apply contains_here.
Qed.

Lemma contains_here_5 (p1 p2 p3 p4 p5 c : string) :
  contains (p1 +:+ p2 +:+ p3 +:+ p4 +:+ p5)
           (p1 +:+ p2 +:+ p3 +:+ p4 +:+ p5 +:+ c) = true.
Proof.
  replace (p1 +:+ p2 +:+ p3 +:+ p4 +:+ p5 +:+ c)
    with ((p1 +:+ p2 +:+ p3 +:+ p4 +:+ p5) +:+ c)
    by now rewrite !app_assoc_str.
  apply contains_here.
Qed.

(** X12. The prompt names its subject twice: as given, between quotes,
    in the TARGET line, and capitalized ([str.capitalize]) at the head of
    the required opener. The subject is the target name when one is given
    and is not empty, and "yo mama" otherwise, so an empty target name
    gives the same prompt as no target name. *)
Theorem prompt_names_the_subject
    (flavor : string) (meanness nerdiness : Z) (target_name : option string)
    (prompt : string) :
  _build_prompt flavor meanness nerdiness target_name = Ok prompt ->
  contains ("TARGET: Use " +:+ dq +:+ subject_of target_name +:+ dq) prompt = true
  /\ contains ("- Start with " +:+ dq +:+ capitalize (subject_of target_name)
               +:+ " so [adjective]..." +:+ dq) prompt = true
  /\ _build_prompt flavor meanness nerdiness (Some EmptyString)
     = _build_prompt flavor meanness nerdiness None.
Proof.
  intros Hp. split; [|split; [|reflexivity]].
  - unfold _build_prompt in Hp. fold (subject_of target_name) in Hp.
    destruct (subscript meanness_guide meanness); [|discriminate].
    destruct (subscript nerdiness_guide nerdiness); [|discriminate].
    inversion Hp. unfold prompt_template.
    repeat first [apply contains_here_4 | apply contains_skip].
  - unfold _build_prompt in Hp. fold (subject_of target_name) in Hp.
    destruct (subscript meanness_guide meanness); [|discriminate].
    destruct (subscript nerdiness_guide nerdiness); [|discriminate].
    inversion Hp. unfold prompt_template.
    repeat first [apply contains_here_5 | apply contains_skip].
Qed.

Lemma prompt_names_the_subject_witness :
  contains ("TARGET: Use " +:+ dq +:+ "bob smith" +:+ dq)
    (prompt_template "tech"
       "technology, computers, software, hardware, operating systems, IT support, tech companies"
       5 "balanced roasting, noticeable but not harsh" 5
       "use technical jargon that tech-savvy people know" "bob smith") = true
  /\ contains ("- Start with " +:+ dq +:+ "Bob smith" +:+ " so [adjective]..." +:+ dq)
       (prompt_template "tech"
          "technology, computers, software, hardware, operating systems, IT support, tech companies"
          5 "balanced roasting, noticeable but not harsh" 5
          "use technical jargon that tech-savvy people know" "bob smith") = true.
Proof.
  destruct (prompt_names_the_subject "tech" 5 5 (Some "bob smith")
              (prompt_template "tech"
                 "technology, computers, software, hardware, operating systems, IT support, tech companies"
                 5 "balanced roasting, noticeable but not harsh" 5
                 "use technical jargon that tech-savvy people know" "bob smith")
              eq_refl) as (H1 & H2 & _).
  split; assumption.
Defined.

(* ===================================================================== *)
(** ** Further properties of the secrets resolver                         *)
(* ===================================================================== *)

Module ResolverFacts.
Import Secrets Accessors SecretsFacts.

Lemma upper_char_lower_char (c : ascii) : upper_char (lower_char c) = upper_char c.
Proof. destruct c as [[] [] [] [] [] [] [] []]; reflexivity. Qed.

Lemma upper_lower (s : string) : upper (lower s) = upper s.
Proof.
  unfold upper, lower. induction s as [|c s IH]; simpl; [reflexivity|].
  now rewrite upper_char_lower_char, IH.
Qed.

Lemma upper_of_lower_eq (a b : string) : lower a = lower b -> upper a = upper b.
Proof. intros H. now rewrite <- (upper_lower a), <- (upper_lower b), H. Qed.

Lemma truthy_of_lower_eq (a b : string) : lower a = lower b -> truthy a = truthy b.
Proof. intros H. now rewrite <- (truthy_lower a), <- (truthy_lower b), H. Qed.

Lemma lower_app (a b : string) : lower (a +:+ b) = lower a +:+ lower b.
Proof. apply map_chars_app. Qed.

Lemma upper_app (a b : string) : upper (a +:+ b) = upper a +:+ upper b.
Proof. apply map_chars_app. Qed.

(** X13. A value that [get_secret] takes from a source is never the
    empty string: the result is a non-empty value, or it is the default
    handed in by the caller. *)
Theorem get_secret_non_empty_or_default
    (env : Env) (key : string) (platform default : option string)
    (aws vault prefix : option string) (value : string) :
  get_secret env key platform default aws vault prefix = Some value ->
  value <> EmptyString \/ default = Some value.
Proof.
  unfold get_secret.
  destruct (from_doppler _ _ _ _) as [v|] eqn:E1; simpl.
  { intros [= <-]. left. apply truthy_true. eapply from_doppler_truthy, E1. }
  destruct (from_aws _ _ _ _) as [v| |] eqn:E2; simpl.
  { intros [= <-]. left. apply truthy_true. eapply from_aws_truthy, E2. }
  2: { intros ->. now right. }
  destruct (from_vault _ _ _ _) as [v| |] eqn:E3; simpl.
  { intros [= <-]. left. apply truthy_true. eapply from_vault_truthy, E3. }
  2: { intros ->. now right. }
  destruct (from_environment _ _) as [v|] eqn:E4; simpl.
  { intros [= <-]. left. apply truthy_true. eapply from_environment_truthy, E4. }
  intros ->. now right.
Qed.

(** An environment variable that is set but empty. *)
Lemma get_secret_non_empty_or_default_witness :
  "fallback" <> EmptyString \/ Some "fallback" = Some "fallback".
Proof.
  apply (get_secret_non_empty_or_default
           {| environ := {[ "LOG_LEVEL" := "" ]};
              dopplersdk := NotInstalled; boto3 := NotInstalled; hvac := NotInstalled |}
           "log_level" None (Some "fallback") None None None "fallback").
  reflexivity.
Defined.

(** X14. [get_secret] reads the key and the platform up to letter case:
    two keys with the same lower-casing, and two platforms with the same
    lower-casing, resolve to the same value. *)
Theorem get_secret_ignores_case
    (env : Env) (key1 key2 : string) (platform1 platform2 default : option string)
    (aws vault prefix : option string) :
  lower key1 = lower key2 ->
  lower <$> platform1 = lower <$> platform2 ->
  get_secret env key1 platform1 default aws vault prefix
  = get_secret env key2 platform2 default aws vault prefix.
Proof.
  intros Hk Hp.
  assert (He : env_key_of key1 platform1 = env_key_of key2 platform2).
  { unfold env_key_of. rewrite (upper_of_lower_eq _ _ Hk).
    destruct platform1 as [p1|], platform2 as [p2|]; try discriminate; [|reflexivity].
    simpl in Hp. injection Hp as Hp.
    now rewrite (truthy_of_lower_eq _ _ Hp), (upper_of_lower_eq _ _ Hp). }
  unfold get_secret, from_doppler, from_aws, from_vault.
  now rewrite He, Hk.
Qed.

Lemma get_secret_ignores_case_witness :
  get_secret hosted_and_local "gemini_api_key" (Some "") None None None None
  = get_secret hosted_and_local "Gemini_Api_Key" (Some "") None None None None.
Proof.
  apply (get_secret_ignores_case hosted_and_local
           "gemini_api_key" "Gemini_Api_Key" (Some "") (Some "")); reflexivity.
Defined.

Lemma getenv_with_backends env d a v name :
  getenv (with_backends env d a v) name = getenv env name.
Proof. reflexivity. Qed.

(** X15. [SECRETS_MANAGER] selects at most one of AWS and Vault. When
    its lower-casing is not "vault" the result of [get_secret] does not
    depend on the Vault backend, when it is not "aws" the result does not
    depend on the AWS backend, and the two are never both asked: an offer
    from AWS excludes one from Vault. *)
Theorem secret_manager_selects_one_backend
    (env : Env) (key : string) (platform default : option string)
    (aws vault prefix : option string) :
  (forall d a v v',
      lower (getenv_or env "SECRETS_MANAGER" "none") <> "vault" ->
      get_secret (with_backends env d a v) key platform default aws vault prefix
      = get_secret (with_backends env d a v') key platform default aws vault prefix)
  /\ (forall d a a' v,
      lower (getenv_or env "SECRETS_MANAGER" "none") <> "aws" ->
      get_secret (with_backends env d a v) key platform default aws vault prefix
      = get_secret (with_backends env d a' v) key platform default aws vault prefix)
  /\ (forall env_key,
      from_aws env key env_key aws <> Passed ->
      from_vault env key env_key vault = Passed).
Proof.
  split; [|split].
  - intros d a v v' Hne.
    assert (Hv : forall b, from_vault (with_backends env d a b) key
                             (env_key_of key platform) vault = Passed).
    { intros b. unfold from_vault. destruct vault as [p|]; [|reflexivity].
      change (getenv_or (with_backends env d a b) "SECRETS_MANAGER" "none")
        with (getenv_or env "SECRETS_MANAGER" "none").
      apply String.eqb_neq in Hne. now rewrite Hne. }
    unfold get_secret. rewrite !Hv. reflexivity.
  - intros d a a' v Hne.
    assert (Ha : forall b, from_aws (with_backends env d b v) key
                             (env_key_of key platform) aws = Passed).
    { intros b. unfold from_aws. destruct aws as [n|]; [|reflexivity].
      change (getenv_or (with_backends env d b v) "SECRETS_MANAGER" "none")
        with (getenv_or env "SECRETS_MANAGER" "none").
      apply String.eqb_neq in Hne. now rewrite Hne. }
    unfold get_secret. rewrite !Ha. reflexivity.
  - intros env_key Haws. unfold from_aws in Haws. unfold from_vault.
    destruct vault as [p|]; [|reflexivity].
    destruct aws as [n|]; [|congruence].
    destruct (String.eqb_spec (lower (getenv_or env "SECRETS_MANAGER" "none")) "aws")
      as [->|Hne]; [reflexivity|].
    simpl in Haws. congruence.
Qed.

(** X16. Doppler is asked only when [DOPPLER_TOKEN] is set and not empty:
    without it the result of [get_secret] does not depend on the Doppler
    backend at all. *)
Theorem doppler_needs_token
    (env : Env) (key : string) (platform default : option string)
    (aws vault prefix : option string) d d' a v :
  truthy_opt (getenv env "DOPPLER_TOKEN") = false ->
  get_secret (with_backends env d a v) key platform default aws vault prefix
  = get_secret (with_backends env d' a v) key platform default aws vault prefix.
Proof.
  intros Htok. unfold get_secret, from_doppler.
  rewrite !getenv_with_backends, Htok. reflexivity.
Qed.

Lemma doppler_needs_token_witness :
  get_secret
    (with_backends local_only
       (Installed (fun _ _ _ =>
          SecretsListed [ ("GEMINI_API_KEY",
                           {| computed := Some "hosted-key"; raw := None |}) ]))
       NotInstalled NotInstalled)
    "GEMINI_API_KEY" None None None None None
  = get_secret (with_backends local_only NotInstalled NotInstalled NotInstalled)
      "GEMINI_API_KEY" None None None None None.
Proof.
  apply (doppler_needs_token local_only "GEMINI_API_KEY" None None None None None).
  reflexivity.
Defined.

Lemma secret_manager_selects_one_backend_witness :
  get_secret
    (with_backends hosted_broken NotInstalled NotInstalled
       (Installed (fun _ _ => None)))
    "bot_token" (Some "discord") None (Some "prod/discord") (Some "secret/discord") None
  = get_secret
      (with_backends hosted_broken NotInstalled NotInstalled NotInstalled)
      "bot_token" (Some "discord") None (Some "prod/discord") (Some "secret/discord") None.
Proof.
  apply (proj1 (secret_manager_selects_one_backend hosted_broken "bot_token"
                  (Some "discord") None (Some "prod/discord") (Some "secret/discord")
                  None)).
  discriminate.
Defined.

Lemma load_doppler_by_listing (env : Env) (name : option string) :
  load_secrets_from_doppler env name
  = match doppler_listing env with
    | Some items => fold_left (doppler_collect name) items ∅
    | None => ∅
    end.
Proof.
  unfold load_secrets_from_doppler, doppler_listing.
  destruct (dopplersdk env) as [sdk|]; [|reflexivity].
  destruct (getenv env "DOPPLER_TOKEN") as [token|]; [|reflexivity].
  destruct (truthy token); simpl; [|reflexivity].
  destruct (sdk token _ _); reflexivity.
Qed.

Lemma doppler_listing_token (env : Env) items :
  doppler_listing env = Some items ->
  truthy_opt (getenv env "DOPPLER_TOKEN") = true.
Proof.
  unfold doppler_listing.
  destruct (dopplersdk env) as [sdk|]; [|discriminate].
  destruct (getenv env "DOPPLER_TOKEN") as [token|]; [|discriminate].
  simpl. destruct (truthy token); [reflexivity | discriminate].
Qed.

Lemma collect_all_names (items : list (string * DopplerValue)) :
  fold_left (doppler_collect None) items ∅
  = doppler_value <$> (list_to_map (reverse items) : gmap string DopplerValue).
Proof.
  induction items as [|[k v] items IH] using rev_ind.
  - simpl. now rewrite fmap_empty.
  - rewrite fold_left_app, reverse_snoc. simpl.
    now rewrite IH, fmap_insert.
Qed.

(** X17. Without a prefix, [load_secrets_from_doppler] returns the
    listing of the service under the full names: a listed secret is found
    under its name with its computed value (its raw value when it has no
    computed one, the empty string when it has neither), and a name that
    is not listed is not in the dict. When there is no listing (library
    missing, token unset, a call that raises) the dict is empty for every
    prefix. *)
Theorem doppler_loader_returns_listing (env : Env) :
  (forall items k v,
      doppler_listing env = Some items -> NoDup items.*1 -> (k, v) ∈ items ->
      load_secrets_from_doppler env None !! k = Some (doppler_value v))
  /\ (forall items k,
      doppler_listing env = Some items -> k ∉ items.*1 ->
      load_secrets_from_doppler env None !! k = None)
  /\ (forall name,
      doppler_listing env = None -> load_secrets_from_doppler env name = ∅).
Proof.
  split; [|split].
  - intros items k v Hl Hnd Hin.
    rewrite load_doppler_by_listing, Hl, collect_all_names, lookup_fmap.
    assert (H : (list_to_map (reverse items) : gmap string DopplerValue) !! k = Some v).
    { apply elem_of_list_to_map.
      - now rewrite fmap_reverse, reverse_Permutation.
      - now apply elem_of_reverse. }
    now rewrite H.
  - intros items k Hl Hnin.
    rewrite load_doppler_by_listing, Hl, collect_all_names, lookup_fmap.
    assert (H : (list_to_map (reverse items) : gmap string DopplerValue) !! k = None).
    { apply not_elem_of_list_to_map.
      now rewrite fmap_reverse, elem_of_reverse. }
    now rewrite H.
  - intros name Hl. now rewrite load_doppler_by_listing, Hl.
Qed.

Lemma doppler_loader_returns_listing_witness :
  load_secrets_from_doppler hosted_and_local None !! "GEMINI_API_KEY"
  = Some "hosted-key"
  /\ load_secrets_from_doppler hosted_and_local None !! "GEMINI_MODEL" = None
  /\ load_secrets_from_doppler hosted_broken (Some "DISCORD") = ∅.
Proof.
  destruct (doppler_loader_returns_listing hosted_and_local) as (H1 & H2 & _).
  destruct (doppler_loader_returns_listing hosted_broken) as (_ & _ & H3).
  split; [|split].
  - apply (H1 [ ("GEMINI_API_KEY",
                 {| computed := Some "hosted-key"; raw := Some "hosted-raw" |}) ]
              "GEMINI_API_KEY"
              {| computed := Some "hosted-key"; raw := Some "hosted-raw" |}).
    + reflexivity.
    + apply (bool_decide_eq_true_1 _). vm_compute. reflexivity.
    + constructor.
  - apply (H2 [ ("GEMINI_API_KEY",
                 {| computed := Some "hosted-key"; raw := Some "hosted-raw" |}) ]).
    + reflexivity.
    + intros H. apply (bool_decide_eq_true_2 _) in H. vm_compute in H. discriminate.
  - apply H3. reflexivity.
Defined.

Lemma length_map_chars f (s : string) :
  String.length (map_chars f s) = String.length s.
Proof. induction s as [|c s IH]; simpl; [reflexivity | now rewrite IH]. Qed.

Lemma startswith_app (p c : string) : startswith (p +:+ c) p = true.
Proof. apply startswith_spec. now exists c. Qed.

Lemma drop_chars_past_prefix (a : string) (sep : ascii) (b : string) :
  drop_chars (String.length a + 1) (a +:+ String sep b) = b.
Proof.
  induction a as [|x a IH]; [reflexivity|].
  rewrite app_cons_str. simpl. exact IH.
Qed.

(** A later round of the loop keeps an entry that it does not overwrite. *)
Lemma collect_keeps (prefix : string) (after : list (string * DopplerValue))
    (d : gmap string string) (k value : string) :
  truthy prefix = true ->
  d !! k = Some value ->
  (forall sk v, (sk, v) ∈ after ->
     startswith (upper sk) (upper prefix) = true ->
     lower (drop_chars (String.length prefix + 1) sk) <> k) ->
  fold_left (doppler_collect (Some prefix)) after d !! k = Some value.
Proof.
  intros Hp. revert d. induction after as [|[sk v] after IH]; intros d Hd Hno.
  - exact Hd.
  - simpl. apply IH.
    + rewrite Hp. destruct (startswith (upper sk) (upper prefix)) eqn:E; [|exact Hd].
      rewrite lookup_insert_ne; [exact Hd|].
      apply (Hno sk v); [constructor | exact E].
    + intros sk' v' Hin. apply (Hno sk' v'). now constructor.
Qed.

(** X18. With a prefix, [load_secrets_from_doppler] files a listed secret
    whose name starts with the prefix (up to letter case) under the
    lower-cased rest of the name, the character that follows the prefix
    being dropped whatever it is. Unless a later secret of the listing
    lands on the same key, that entry holds the value of the secret, and
    [get_secret] with this prefix returns it for a key with the same
    lower-casing when the value is not empty. *)
Theorem doppler_prefixed_secret_is_found
    (env : Env) (prefix stem : string) (sep : ascii) (name : string)
    (v : DopplerValue) (before after : list (string * DopplerValue))
    (key : string) (platform default aws vault : option string) :
  doppler_listing env = Some (before ++ (stem +:+ String sep name, v) :: after) ->
  prefix <> EmptyString ->
  upper stem = upper prefix ->
  (forall sk v', (sk, v') ∈ after ->
     startswith (upper sk) (upper prefix) = true ->
     lower (drop_chars (String.length prefix + 1) sk) <> lower name) ->
  load_secrets_from_doppler env (Some prefix) !! lower name
  = Some (doppler_value v)
  /\ (lower key = lower name -> doppler_value v <> EmptyString ->
      get_secret env key platform default aws vault (Some prefix)
      = Some (doppler_value v)).
Proof.
  intros Hl Hp Hstem Hafter.
  apply truthy_true in Hp.
  assert (Hlen : String.length stem = String.length prefix).
  { rewrite <- (length_map_chars upper_char stem),
            <- (length_map_chars upper_char prefix).
    unfold upper in Hstem. now rewrite Hstem. }
  assert (Hload : load_secrets_from_doppler env (Some prefix) !! lower name
                  = Some (doppler_value v)).
  { rewrite load_doppler_by_listing, Hl, fold_left_app. cbn [fold_left].
    apply collect_keeps; [exact Hp| |exact Hafter].
    cbn [doppler_collect]. rewrite Hp, upper_app, Hstem, startswith_app.
    rewrite <- Hlen, drop_chars_past_prefix. apply lookup_insert_eq. }
  split; [exact Hload|].
  intros Hk Hv. unfold get_secret, from_doppler.
  rewrite (doppler_listing_token _ _ Hl). cbn [truthy_opt]. rewrite Hp, Hk.
  now rewrite (found_some _ _ _ Hload Hv).
Qed.

Lemma doppler_prefixed_secret_is_found_witness :
  load_secrets_from_doppler two_secret_project (Some "discord") !! "bot_token"
  = Some "abc"
  /\ get_secret two_secret_project "BOT_TOKEN" (Some "discord") None None None
                (Some "discord")
     = Some "abc".
Proof.
  destruct (doppler_prefixed_secret_is_found two_secret_project
              "discord" "DISCORD" "_" "BOT_TOKEN"
              {| computed := Some "abc"; raw := None |} []
              [ ("MATRIX_PASSWORD", {| computed := None; raw := Some "xyz" |}) ]
              "BOT_TOKEN" (Some "discord") None None None) as [H1 H2].
  - reflexivity.
  - discriminate.
  - reflexivity.
  - intros sk v' Hin Hs.
    apply list_elem_of_singleton in Hin. inversion Hin; subst.
    vm_compute in Hs. discriminate.
  - split; [exact H1|]. apply H2; [reflexivity | discriminate].
Defined.

Lemma fold_insert_lookup {A} (f : string -> A) (keys : list string)
    (acc : gmap string A) (k : string) :
  fold_left (fun result key => <[key := f key]> result) keys acc !! k
  = if decide (k ∈ keys) then Some (f k) else acc !! k.
Proof.
  revert acc. induction keys as [|a keys IH]; intros acc; simpl.
  - destruct (decide (k ∈ [])) as [H|_]; [inversion H | reflexivity].
  - rewrite IH.
    destruct (decide (k ∈ keys)) as [Hin|Hnin].
    + rewrite decide_True by now right. reflexivity.
    + destruct (decide (k = a)) as [->|Hne].
      * rewrite decide_True by now left. apply lookup_insert_eq.
      * rewrite decide_False by (rewrite elem_of_cons; tauto).
        now apply lookup_insert_ne.
Qed.

(** X19. [get_secrets_for_platform] returns a dict with exactly the
    requested keys: each requested key is present, also when nothing was
    found for it (its value is then [None]), and holds what [get_secret]
    resolves for that key with the platform, no default, and the
    upper-cased platform as Doppler prefix; no other key is present. *)
Theorem platform_secrets_have_requested_keys
    (env : Env) (platform : string) (keys : list string)
    (aws vault : option string) (k : string) :
  (k ∈ keys ->
   get_secrets_for_platform env platform keys aws vault !! k
   = Some (get_secret env k (Some platform) None aws vault (Some (upper platform))))
  /\ (k ∉ keys ->
      get_secrets_for_platform env platform keys aws vault !! k = None).
Proof.
  unfold get_secrets_for_platform.
  rewrite (fold_insert_lookup
             (fun key => get_secret env key (Some platform) None aws vault
                                    (Some (upper platform)))).
  split; intros H.
  - now rewrite decide_True.
  - rewrite decide_False by assumption. apply lookup_empty.
Qed.

Lemma platform_secrets_have_requested_keys_witness :
  get_secrets_for_platform hosted_broken "discord" [ "bot_token"; "client_id" ]
                           None None !! "client_id"
  = Some (get_secret hosted_broken "client_id" (Some "discord") None None None
                     (Some (upper "discord")))
  /\ get_secrets_for_platform hosted_broken "discord" [ "bot_token"; "client_id" ]
                              None None !! "client_secret" = None.
Proof.
  split.
  - apply (proj1 (platform_secrets_have_requested_keys hosted_broken "discord"
                    [ "bot_token"; "client_id" ] None None "client_id")).
    apply (bool_decide_eq_true_1 _). vm_compute. reflexivity.
  - apply (proj2 (platform_secrets_have_requested_keys hosted_broken "discord"
                    [ "bot_token"; "client_id" ] None None "client_secret")).
    intros H. apply (bool_decide_eq_true_2 _) in H. vm_compute in H. discriminate.
Defined.

(** X20. The three single-backend getters return the caller's default
    when their backend cannot be used (library missing, or every call
    failing), and otherwise whatever the loaded dict holds for the key,
    an empty string included: unlike [get_secret] they do not skip an
    empty value. *)
Theorem backend_getters_default_when_unavailable
    (env : Env) (name key : string) (default : option string) :
  (doppler_unavailable env -> get_doppler_secret env key default = default)
  /\ (aws_unavailable env -> get_aws_secret env name key default = Value default)
  /\ (vault_unavailable env -> get_vault_secret env name key default = Value default)
  /\ (forall secrets value,
        load_secrets_from_aws env name = Object secrets ->
        secrets !! lower key = Some value ->
        get_aws_secret env name key default = Value (Some value))
  /\ (forall secrets value,
        load_secrets_from_vault env name = Object secrets ->
        secrets !! lower key = Some value ->
        get_vault_secret env name key default = Value (Some value))
  /\ (forall value,
        load_secrets_from_doppler env None !! upper key = Some value ->
        get_doppler_secret env key default = Some value).
Proof.
  unfold get_doppler_secret, get_aws_secret, get_vault_secret.
  repeat split.
  - intros H. unfold dict_get.
    now rewrite (load_doppler_unavailable _ _ H), lookup_empty.
  - intros H. rewrite (load_aws_unavailable _ _ H). unfold payload_get, dict_get.
    now rewrite lookup_empty.
  - intros H. rewrite (load_vault_unavailable _ _ H). unfold payload_get, dict_get.
    now rewrite lookup_empty.
  - intros secrets value -> H. unfold payload_get, dict_get. now rewrite H.
  - intros secrets value -> H. unfold payload_get, dict_get. now rewrite H.
  - intros value H. unfold dict_get. now rewrite H.
Qed.

Lemma backend_getters_default_when_unavailable_witness :
  get_doppler_secret hosted_broken "bot_token" (Some "none") = Some "none"
  /\ get_aws_secret hosted_broken "prod/discord" "bot_token" None = Value None
  /\ get_aws_secret
       {| environ := ∅; dopplersdk := NotInstalled;
          boto3 := Installed (fun _ => Some (Object {[ "bot_token" := "" ]}));
          hvac := NotInstalled |}
       "prod/discord" "BOT_TOKEN" (Some "fallback") = Value (Some "").
Proof.
  destruct hosted_broken_unavailable as (Hd & Ha & _).
  split; [|split].
  - apply (proj1 (backend_getters_default_when_unavailable
                    hosted_broken "" "bot_token" (Some "none"))). exact Hd.
  - apply (proj1 (proj2 (backend_getters_default_when_unavailable
                           hosted_broken "prod/discord" "bot_token" None))).
    exact Ha.
  - apply (proj1 (proj2 (proj2 (proj2 (backend_getters_default_when_unavailable
             {| environ := ∅; dopplersdk := NotInstalled;
                boto3 := Installed (fun _ => Some (Object {[ "bot_token" := "" ]}));
                hvac := NotInstalled |}
             "prod/discord" "BOT_TOKEN" (Some "fallback")))))
           {[ "bot_token" := "" ]}); reflexivity.
Defined.



End ResolverFacts.

(* ===================================================================== *)
(** ** Properties of the configuration                                    *)
(* ===================================================================== *)

Module ConfigFacts.
Import Secrets Accessors SecretsFacts.

Lemma config_get_secret_offers (env : Env) (key : string) (default : option string) :
  Config.get_secret env key default
  = match from_doppler env key (upper key) None with
    | Some value => Some value
    | None =>
        match from_environment env (upper key) with
        | Some value => Some value
        | None => default
        end
    end.
Proof.
  unfold Config.get_secret, get_secret. cbn [env_key_of from_aws from_vault].
  destruct (from_doppler _ _ _ _); [reflexivity|]. simpl.
  destruct (from_environment _ _); reflexivity.
Qed.

(** X21. A lookup through [Config] asks Doppler and the environment
    only: [Config.get_secret] hands no AWS secret name and no Vault path
    to the resolver, so its result is the same whatever the AWS and Vault
    backends are, also with [SECRETS_MANAGER] set to "aws" or "vault". *)
Theorem config_never_asks_aws_or_vault
    (env : Env) (key : string) (default : option string) d a a' v v' :
  Config.get_secret (with_backends env d a v) key default
  = Config.get_secret (with_backends env d a' v') key default
  /\ Config.get_secret env key default
     = first_non_empty [ from_doppler env key (upper key) None;
                         from_environment env (upper key) ] default.
Proof.
  split.
  - rewrite !config_get_secret_offers. reflexivity.
  - rewrite config_get_secret_offers. cbn [first_non_empty].
    destruct (from_doppler _ _ _ _) as [x|] eqn:E1.
    { now rewrite (from_doppler_truthy _ _ _ _ _ E1). }
    destruct (from_environment _ _) as [x|] eqn:E2; [|reflexivity].
    now rewrite (from_environment_truthy _ _ _ E2).
Qed.

Lemma config_get_secret_local (env : Env) (key : string) (default : option string) :
  truthy_opt (getenv env "DOPPLER_TOKEN") = false ->
  Config.get_secret env key default
  = match environ env !! upper key with
    | Some value => if truthy value then Some value else default
    | None => default
    end.
Proof.
  intros Htok. rewrite config_get_secret_offers.
  unfold from_doppler, from_environment, getenv in *. rewrite Htok.
  destruct (environ env !! upper key) as [value|]; [|reflexivity].
  destruct (truthy value); reflexivity.
Qed.

(** X22. [Config.get_bool] with Doppler not enabled: a variable that is
    unset, or set to the empty string, gives the default; a variable with
    a non-empty value gives [True] exactly when the lower-cased value is
    one of true, 1, yes, on, enabled, whatever the default is. *)
Theorem get_bool_reads_environment
    (env : Env) (key : string) (default : bool) :
  truthy_opt (getenv env "DOPPLER_TOKEN") = false ->
  (environ env !! upper key = None -> Config.get_bool env key default = default)
  /\ (environ env !! upper key = Some EmptyString ->
      Config.get_bool env key default = default)
  /\ (forall value,
        environ env !! upper key = Some value -> value <> EmptyString ->
        (Config.get_bool env key default = true
         <-> lower value ∈ Config.true_words)).
Proof.
  intros Htok. unfold Config.get_bool.
  rewrite (config_get_secret_local env key None Htok).
  split; [|split].
  - intros ->. reflexivity.
  - intros ->. reflexivity.
  - intros value -> Hne. apply truthy_true in Hne. rewrite Hne.
    apply bool_decide_eq_true.
Qed.

Lemma get_bool_reads_environment_witness :
  Config.get_bool {| environ := {[ "DEBUG" := "" ]}; dopplersdk := NotInstalled;
                     boto3 := NotInstalled; hvac := NotInstalled |}
                  "debug" true = true
  /\ (Config.get_bool {| environ := {[ "DEBUG" := "Yes" ]}; dopplersdk := NotInstalled;
                         boto3 := NotInstalled; hvac := NotInstalled |}
                      "debug" false = true
      <-> lower "Yes" ∈ Config.true_words).
Proof.
  split.
  - destruct (get_bool_reads_environment
                {| environ := {[ "DEBUG" := "" ]}; dopplersdk := NotInstalled;
                   boto3 := NotInstalled; hvac := NotInstalled |}
                "debug" true) as (_ & H & _); [reflexivity|].
    apply H. reflexivity.
  - destruct (get_bool_reads_environment
                {| environ := {[ "DEBUG" := "Yes" ]}; dopplersdk := NotInstalled;
                   boto3 := NotInstalled; hvac := NotInstalled |}
                "debug" false) as (_ & _ & H); [reflexivity|].
    apply (H "Yes"); [reflexivity | discriminate].
Defined.

(** X23. [Config.validate] has two outcomes: valid with nothing missing,
    or invalid with GEMINI_API_KEY as the one missing key. It is valid
    exactly when the key resolves to a non-empty value, and a non-empty
    GEMINI_API_KEY in the environment is enough for that, whatever Doppler
    does. *)
Theorem validate_requires_api_key (env : Env) :
  (Config.validate env = (true, [])
   \/ Config.validate env = (false, [ "GEMINI_API_KEY" ]))
  /\ (Config.validate env = (true, [])
      <-> exists value, Config.gemini_api_key env = Some value
                        /\ value <> EmptyString)
  /\ (forall value,
        environ env !! "GEMINI_API_KEY" = Some value -> value <> EmptyString ->
        Config.validate env = (true, [])).
Proof.
  assert (Hv : Config.validate env
               = if truthy_opt (Config.gemini_api_key env) then (true, [])
                 else (false, [ "GEMINI_API_KEY" ])).
  { unfold Config.validate, Config.required_keys, Config.gemini_api_key.
    cbn [fold_left]. destruct (truthy_opt _); reflexivity. }
  split; [|split].
  - rewrite Hv. destruct (truthy_opt _); auto.
  - rewrite Hv. destruct (Config.gemini_api_key env) as [value|]; simpl.
    + destruct (truthy value) eqn:E.
      * split; [|reflexivity]. intros _. exists value.
        split; [reflexivity | now apply truthy_true].
      * split; [discriminate|]. intros (x & [= <-] & Hne).
        apply truthy_true in Hne. congruence.
    + split; [discriminate|]. intros (x & Hx & _). discriminate.
  - intros value Henv Hne. rewrite Hv.
    unfold Config.gemini_api_key. rewrite config_get_secret_offers.
    destruct (from_doppler _ _ _ _) as [x|] eqn:E1.
    { simpl. now rewrite (from_doppler_truthy _ _ _ _ _ E1). }
    unfold from_environment, getenv.
    change (upper "GEMINI_API_KEY") with "GEMINI_API_KEY". rewrite Henv.
    apply truthy_true in Hne. rewrite Hne. simpl. now rewrite Hne.
Qed.

Lemma validate_requires_api_key_witness :
  Config.validate hosted_and_local = (true, [])
  /\ Config.validate hosted_broken = (false, [ "GEMINI_API_KEY" ]).
Proof.
  split.
  - apply (proj2 (proj2 (validate_requires_api_key hosted_and_local)) "local-key").
    + reflexivity.
    + discriminate.
  - destruct (proj1 (validate_requires_api_key hosted_broken)) as [H|H].
    + discriminate H.
    + exact H.
Defined.

(** X24. The settings that come with a default are always there: the
    model name, the default flavor and the log level are never [None] and
    never the empty string, whatever the sources hold. *)
Theorem defaulted_settings_are_never_empty (env : Env) :
  (exists value, Config.gemini_model env = Some value /\ value <> EmptyString)
  /\ (exists value, Config.default_flavor env = Some value /\ value <> EmptyString)
  /\ (exists value, Config.log_level env = Some value /\ value <> EmptyString).
Proof.
  assert (H : forall key d, d <> EmptyString ->
            exists value, Config.get_secret env key (Some d) = Some value
                          /\ value <> EmptyString).
  { intros key d Hd. rewrite config_get_secret_offers.
    destruct (from_doppler _ _ _ _) as [x|] eqn:E1.
    { exists x. split; [reflexivity|].
      apply truthy_true. eapply from_doppler_truthy, E1. }
    destruct (from_environment _ _) as [x|] eqn:E2.
    { exists x. split; [reflexivity|].
      apply truthy_true. eapply from_environment_truthy, E2. }
    exists d. split; [reflexivity | exact Hd]. }
  repeat split; apply H; discriminate.
Qed.

End ConfigFacts.

(* ===================================================================== *)
(** ** Properties of the interactive loop                                 *)
(* ===================================================================== *)

Module InteractiveFacts.
Import Interactive.

Ltac split_step :=
  repeat match goal with
         | |- context [match ?o with Some _ => _ | None => _ end] => destruct o eqn:?
         | |- context [if ?c then _ else _] => destruct c eqn:?
         end.

Lemma step_keeps_well_set py_int (s : Settings) (line : string) :
  well_set s -> well_set (fst (step py_int s line)).
Proof.
  intros (Hf & Hm & Hn). unfold step. split_step; cbn [fst];
    unfold well_set; cbn [current_flavor current_meanness current_nerdiness];
    repeat split; try tauto; try lia;
    match goal with
    | H : bool_decide _ = true |- _ => exact (bool_decide_eq_true_1 _ H)
    end.
Qed.

(** X25. The interactive loop keeps its settings in order: starting from
    a flavor of the catalogue and two levels in 1..10, after any lines
    typed (whatever [int] makes of the numbers in them) the flavor is
    still one of the catalogue and both levels are still in 1..10. *)
Theorem interactive_settings_stay_well_set
    py_int (lines : list string) (s : Settings) :
  well_set s -> well_set (settings_after py_int lines s).
Proof.
  revert s. induction lines as [|line rest IH]; intros s Hs; [exact Hs|].
  cbn [settings_after].
  pose proof (step_keeps_well_set py_int s line Hs) as Hstep.
  destruct (step py_int s line) as [s' e]. cbn [fst] in Hstep.
  destruct e; auto.
Qed.

Lemma interactive_settings_stay_well_set_witness :
  well_set (settings_after int_of_digits
              [ "m 7"; "f Linux"; "n 42"; ""; "t bob"; "m x"; "QUIT"; "n 1" ]
              {| current_flavor := "tech"; current_meanness := 5;
                 current_nerdiness := 5; current_target := None |}).
Proof.
  apply (interactive_settings_stay_well_set int_of_digits).
  split; [|split].
  - apply (bool_decide_eq_true_1 _). vm_compute. reflexivity.
  - simpl. lia.
  - simpl. lia.
Defined.

(** The session of the witness, computed: 42 and x are refused, QUIT
    ends the loop before the last line is read. *)
Example interactive_session :
  settings_after int_of_digits
    [ "m 7"; "f Linux"; "n 42"; ""; "t bob"; "m x"; "QUIT"; "n 1" ]
    {| current_flavor := "tech"; current_meanness := 5;
       current_nerdiness := 5; current_target := None |}
  = {| current_flavor := "linux"; current_meanness := 7;
       current_nerdiness := 5; current_target := Some "bob" |}.
Proof. vm_compute. reflexivity. Qed.

Lemma step_call_joke py_int (s s' : Settings) (line : string) f m n t :
  step py_int s line = (s', CallJoke f m n t) ->
  s' = s /\ f = current_flavor s /\ m = current_meanness s
  /\ n = current_nerdiness s /\ t = current_target s.
Proof.
  unfold step. split_step; intros H; inversion H; subst; auto.
Qed.

Lemma step_call_batch py_int (s s' : Settings) (line : string) c f m n t :
  step py_int s line = (s', CallBatch c f m n t) ->
  s' = s /\ (1 <= c <= 20)%Z /\ f = current_flavor s /\ m = current_meanness s
  /\ n = current_nerdiness s /\ t = current_target s.
Proof.
  unfold step. split_step; intros H; inversion H; subst.
  repeat split; lia.
Qed.

(** X26. With settings in order, the calls that the loop makes need no
    repair by the generator. A joke is requested with the settings as
    they are: no theme is drawn and the prompt is built from the two
    levels unclamped. A batch is requested only for a count in 1..20, and
    then exactly that many jokes come back. *)
Theorem interactive_calls_use_settings_as_they_are
    py_int (s s' : Settings) (line : string) (e : Effect) :
  well_set s ->
  step py_int s line = (s', e) ->
  (forall f m n t, e = CallJoke f m n t ->
     forall w, exists prompt,
       compose_request (Some f) m n t w = (Ok (f, prompt), w)
       /\ _build_prompt (current_flavor s) (current_meanness s)
                        (current_nerdiness s) (current_target s) = Ok prompt)
  /\ (forall c f m n t, e = CallBatch c f m n t ->
        (1 <= c <= 20)%Z
        /\ forall w, exists jokes w',
             perform e w = (Ok jokes, w')
             /\ Z.of_nat (length jokes) = c
             /\ length (requests w') = (length (requests w) + Z.to_nat c)%nat).
Proof.
  intros (Hf & Hm & Hn) Hstep. split.
  - intros f m n t ->.
    apply step_call_joke in Hstep as (_ & -> & -> & -> & ->).
    intros w.
    destruct (compose_request_total (Some (current_flavor s)) (current_meanness s)
                (current_nerdiness s) (current_target s) w)
      as (fl & prompt & w1 & Hc & Hres & Hp & _).
    pose proof (lower_fixes_FLAVORS _ Hf) as Hl.
    assert (Hk : lower (current_flavor s) ∈ FLAVORS) by now rewrite Hl.
    rewrite (resolve_flavor_known _ w Hk), Hl in Hres. inversion Hres; subst fl w1.
    exists prompt. split; [exact Hc|].
    replace (clamp_level (current_meanness s)) with (current_meanness s) in Hp
      by (unfold clamp_level; lia).
    replace (clamp_level (current_nerdiness s)) with (current_nerdiness s) in Hp
      by (unfold clamp_level; lia).
    exact Hp.
  - intros c f m n t ->.
    apply step_call_batch in Hstep as (_ & Hc & _).
    split; [exact Hc|]. intros w. cbn [perform]. unfold generate_batch.
    destruct (batch_loop_generate_joke (Some f) m n t (Z.to_nat c) [] w)
      as (new & w' & H & Hlen & _ & Hr & _).
    rewrite H. exists new, w'. cbn [app].
    split; [reflexivity|]. split; [lia | exact Hr].
Qed.

Lemma interactive_calls_use_settings_as_they_are_witness :
  (1 <= 3 <= 20)%Z
  /\ forall w, exists jokes w',
       perform (CallBatch 3 "tech" 5 5 None) w = (Ok jokes, w')
       /\ Z.of_nat (length jokes) = 3%Z
       /\ length (requests w') = (length (requests w) + Z.to_nat 3)%nat.
Proof.
  destruct (interactive_calls_use_settings_as_they_are int_of_digits
              {| current_flavor := "tech"; current_meanness := 5;
                 current_nerdiness := 5; current_target := None |}
              {| current_flavor := "tech"; current_meanness := 5;
                 current_nerdiness := 5; current_target := None |}
              "  b 3 " (CallBatch 3 "tech" 5 5 None)) as [_ H].
  - split; [|split].
    + apply (bool_decide_eq_true_1 _). vm_compute. reflexivity.
    + simpl. lia.
    + simpl. lia.
  - vm_compute. reflexivity.
  - apply (H 3%Z "tech" 5%Z 5%Z None). reflexivity.
Defined.

End InteractiveFacts.

(* ===================================================================== *)
(** ** Properties of the bots' commands                                   *)
(* ===================================================================== *)

Module BotFacts.

Ltac split_handling :=
  repeat match goal with
         | |- context [match ?o with Some _ => _ | None => _ end] => destruct o eqn:?
         | |- context [match ?l with [] => _ | _ :: _ => _ end] => destruct l eqn:?
         | |- context [if ?c then _ else _] => destruct c eqn:?
         end.

Lemma build_prompt_for_accepted_levels
    (flavor : option string) (meanness nerdiness : Z) (target : option string)
    (w : World) :
  (1 <= meanness <= 11)%Z -> (1 <= nerdiness <= 10)%Z ->
  exists theme prompt w1,
    compose_request flavor meanness nerdiness target w = (Ok (theme, prompt), w1)
    /\ _build_prompt theme (Z.min 10 meanness) nerdiness target = Ok prompt.
Proof.
  intros Hm Hn.
  destruct (compose_request_total flavor meanness nerdiness target w)
    as (theme & prompt & w1 & Hc & _ & Hp & _).
  exists theme, prompt, w1. split; [exact Hc|].
  replace (clamp_level meanness) with (Z.min 10 meanness) in Hp
    by (unfold clamp_level; lia).
  replace (clamp_level nerdiness) with nerdiness in Hp
    by (unfold clamp_level; lia).
  exact Hp.
Qed.

(** X27. The Matrix bot checks the levels before it calls the generator,
    the defaults of the configuration included: a joke is requested only
    with a meanness in 1..11 and a nerdiness in 1..10. The generator then
    builds the request with the nerdiness as given and the meanness
    capped at 10, so a meanness of 11 is accepted and gives the request
    of a meanness of 10. A batch is requested only for a count in 1..10,
    and exactly that many jokes come back. *)
Theorem matrix_commands_are_checked
    py_int (bot : MatrixBot.Bot) (sender body : string) :
  (forall flavor meanness nerdiness,
      MatrixBot._handle_message py_int bot sender body
      = MatrixBot.JokeCall flavor meanness nerdiness ->
      (1 <= meanness <= 11)%Z /\ (1 <= nerdiness <= 10)%Z
      /\ forall w, exists theme prompt w1,
           compose_request flavor meanness nerdiness None w
           = (Ok (theme, prompt), w1)
           /\ _build_prompt theme (Z.min 10 meanness) nerdiness None = Ok prompt)
  /\ (forall count flavor meanness nerdiness,
      MatrixBot._handle_message py_int bot sender body
      = MatrixBot.BatchCall count flavor meanness nerdiness ->
      (1 <= count <= 10)%Z
      /\ forall w, exists jokes w',
           MatrixBot.perform (MatrixBot.BatchCall count flavor meanness nerdiness) w
           = (Ok jokes, w')
           /\ Z.of_nat (length jokes) = count).
Proof.
  split.
  - intros flavor meanness nerdiness.
    unfold MatrixBot._handle_message, MatrixBot._cmd_joke, MatrixBot._cmd_batch.
    split_handling; intros H; inversion H; subst.
    all: assert (Hm : (1 <= meanness <= 11)%Z) by lia.
    all: assert (Hn : (1 <= nerdiness <= 10)%Z) by lia.
    all: split; [exact Hm|]; split; [exact Hn|]; intros w.
    all: now apply build_prompt_for_accepted_levels.
  - intros count flavor meanness nerdiness.
    unfold MatrixBot._handle_message, MatrixBot._cmd_joke, MatrixBot._cmd_batch.
    split_handling; intros H; inversion H; subst.
    all: assert (Hc : (1 <= count <= 10)%Z) by lia.
    all: split; [exact Hc|]; intros w; cbn [MatrixBot.perform].
    all: unfold generate_batch.
    all: match goal with
         | |- context [batch_loop (generate_joke ?f ?m ?n ?t) ?k [] ?w0] =>
             destruct (batch_loop_generate_joke f m n t k [] w0)
               as (new & w' & Hb & Hlen & _);
             rewrite Hb; exists new, w'; cbn [app]; split; [reflexivity | lia]
         end.
Qed.

Lemma matrix_commands_are_checked_witness :
  ((1 <= 11 <= 11)%Z /\ (1 <= 3 <= 10)%Z
   /\ forall w, exists theme prompt w1,
        compose_request (Some "linux") 11 3 None w = (Ok (theme, prompt), w1)
        /\ _build_prompt theme (Z.min 10 11) 3 None = Ok prompt)
  /\ ((1 <= 3 <= 10)%Z
      /\ forall w, exists jokes w',
           MatrixBot.perform (MatrixBot.BatchCall 3 None 5 5) w = (Ok jokes, w')
           /\ Z.of_nat (length jokes) = 3%Z).
Proof.
  split.
  - apply (proj1 (matrix_commands_are_checked int_of_digits
                    {| MatrixBot.prefix := "!"; MatrixBot.user_id := "@bot:matrix.org";
                       MatrixBot.default_meanness := 5;
                       MatrixBot.default_nerdiness := 5 |}
                    "@alice:matrix.org" "  !JOKE linux 11 3 ")
                 (Some "linux") 11%Z 3%Z).
    vm_compute. reflexivity.
  - apply (proj2 (matrix_commands_are_checked int_of_digits
                    {| MatrixBot.prefix := "!"; MatrixBot.user_id := "@bot:matrix.org";
                       MatrixBot.default_meanness := 5;
                       MatrixBot.default_nerdiness := 5 |}
                    "@alice:matrix.org" "!batch")
                 3%Z None 5%Z 5%Z).
    vm_compute. reflexivity.
Defined.

Lemma int_or_given (x fallback : Z) : x <> 0%Z -> int_or (Some x) fallback = x.
Proof. intros H. unfold int_or. now rewrite (proj2 (Z.eqb_neq x 0) H). Qed.

(** X28. The slash command /joke of the Discord bot with the flavor
    thegame: when the call is made, the theme is thegame, the meanness is
    11 whatever was asked, and the nerdiness is the meanness that was
    asked (5 when none was); so the request is built at meanness 10 and
    at that nerdiness capped at 10. The target is the display name of the
    mentioned user, else the target given when it is not empty, else
    "you". *)
Theorem discord_thegame_goes_to_eleven
    (config : DiscordBot.Defaults) (meanness nerdiness : option Z)
    (target user : option string) (f : string) (m n : Z) (t : option string) :
  DiscordBot.joke_slash config (Some "thegame") meanness nerdiness target user
  = DiscordBot.JokeCall f m n t ->
  f = "thegame" /\ m = 11%Z
  /\ n = default 5%Z meanness /\ (1 <= n <= 11)%Z
  /\ t = Some (default (str_or target "you") user)
  /\ (user = None -> t <> Some EmptyString)
  /\ forall w, exists prompt,
       compose_request (Some f) m n t w = (Ok ("thegame", prompt), w)
       /\ _build_prompt "thegame" 10 (Z.min 10 n) t = Ok prompt.
Proof.
  unfold DiscordBot.joke_slash.
  destruct (match meanness with
            | Some m0 => negb ((1 <=? m0)%Z && (m0 <=? 11)%Z)
            | None => false
            end) eqn:Em; [discriminate|].
  destruct (match nerdiness with
            | Some n0 => negb ((1 <=? n0)%Z && (n0 <=? 10)%Z)
            | None => false
            end) eqn:En; [discriminate|].
  rewrite bool_decide_eq_true_2 by reflexivity.
  intros H. inversion H; subst f m n t. clear H.
  assert (Hn : int_or meanness 5 = default 5%Z meanness
               /\ (1 <= int_or meanness 5 <= 11)%Z).
  { destruct meanness as [m0|]; simpl; [|split; [reflexivity | lia]].
    apply negb_false_iff, andb_true_iff in Em as [H1 H2].
    apply Z.leb_le in H1, H2.
    rewrite (proj2 (Z.eqb_neq m0 0)) by lia. split; [reflexivity | lia]. }
  destruct Hn as [Hn Hr].
  split; [reflexivity|]. split; [reflexivity|]. split; [exact Hn|].
  split; [exact Hr|]. split; [destruct user; reflexivity|].
  split.
  - intros ->. unfold str_or. destruct target as [[|c x]|]; discriminate.
  - intros w.
    destruct (compose_request_total (Some "thegame") 11 (int_or meanness 5)
                (match user with
                 | Some display_name => Some display_name
                 | None => Some (str_or target "you")
                 end) w)
      as (theme & prompt & w1 & Hc & Hres & Hp & _).
    change (resolve_flavor (Some "thegame") w) with (@Ok string "thegame", w) in Hres.
    inversion Hres; subst theme w1.
    exists prompt. split; [exact Hc|].
    replace (clamp_level (int_or meanness 5)) with (Z.min 10 (int_or meanness 5)) in Hp
      by (unfold clamp_level; lia).
    exact Hp.
Qed.

Lemma discord_thegame_goes_to_eleven_witness :
  "thegame" = "thegame" /\ 11%Z = 11%Z
  /\ 3%Z = default 5%Z (Some 3%Z) /\ (1 <= 3 <= 11)%Z
  /\ Some "you" = Some (default (str_or (Some "") "you") None)
  /\ (@None string = None -> Some "you" <> Some EmptyString)
  /\ forall w, exists prompt,
       compose_request (Some "thegame") 11 3 (Some "you") w
       = (Ok ("thegame", prompt), w)
       /\ _build_prompt "thegame" 10 (Z.min 10 3) (Some "you") = Ok prompt.
Proof.
  apply (discord_thegame_goes_to_eleven
           {| DiscordBot.default_flavor := "tech"; DiscordBot.default_meanness := 5;
              DiscordBot.default_nerdiness := 5 |}
           (Some 3%Z) (Some 9%Z) (Some "") None).
  reflexivity.
Defined.

(** X29. The slash command /joke for any other flavor: a level that was
    given reaches the generator as it is (a given meanness lies in 1..11,
    a given nerdiness in 1..10); the default of the configuration is used
    for a level that was not given, and only then; the flavor is the one
    given when it is not empty, else the default flavor. *)
Theorem discord_joke_passes_given_levels
    (config : DiscordBot.Defaults) (flavor : option string)
    (meanness nerdiness : option Z) (target user : option string)
    (f : string) (m n : Z) (t : option string) :
  flavor <> Some "thegame" ->
  DiscordBot.joke_slash config flavor meanness nerdiness target user
  = DiscordBot.JokeCall f m n t ->
  f = str_or flavor (DiscordBot.default_flavor config)
  /\ m = default (DiscordBot.default_meanness config) meanness
  /\ n = default (DiscordBot.default_nerdiness config) nerdiness
  /\ (forall given, meanness = Some given -> (1 <= m <= 11)%Z)
  /\ (forall given, nerdiness = Some given -> (1 <= n <= 10)%Z)
  /\ t = match user with Some display_name => Some display_name | None => target end.
Proof.
  intros Hflavor. unfold DiscordBot.joke_slash.
  destruct (match meanness with
            | Some m0 => negb ((1 <=? m0)%Z && (m0 <=? 11)%Z)
            | None => false
            end) eqn:Em; [discriminate|].
  destruct (match nerdiness with
            | Some n0 => negb ((1 <=? n0)%Z && (n0 <=? 10)%Z)
            | None => false
            end) eqn:En; [discriminate|].
  rewrite bool_decide_eq_false_2 by assumption.
  intros H. inversion H; subst f m n t. clear H.
  assert (Hm : int_or meanness (DiscordBot.default_meanness config)
               = default (DiscordBot.default_meanness config) meanness
               /\ forall given, meanness = Some given -> (1 <= given <= 11)%Z).
  { destruct meanness as [m0|]; simpl; [|split; [reflexivity | discriminate]].
    apply negb_false_iff, andb_true_iff in Em as [H1 H2].
    apply Z.leb_le in H1, H2.
    rewrite (proj2 (Z.eqb_neq m0 0)) by lia.
    split; [reflexivity|]. intros given [= <-]. lia. }
  assert (Hn : int_or nerdiness (DiscordBot.default_nerdiness config)
               = default (DiscordBot.default_nerdiness config) nerdiness
               /\ forall given, nerdiness = Some given -> (1 <= given <= 10)%Z).
  { destruct nerdiness as [n0|]; simpl; [|split; [reflexivity | discriminate]].
    apply negb_false_iff, andb_true_iff in En as [H1 H2].
    apply Z.leb_le in H1, H2.
    rewrite (proj2 (Z.eqb_neq n0 0)) by lia.
    split; [reflexivity|]. intros given [= <-]. lia. }
  destruct Hm as [Hm Hmr], Hn as [Hn Hnr].
  split; [reflexivity|]. split; [exact Hm|]. split; [exact Hn|].
  split; [|split; [|reflexivity]].
  - intros given ->. rewrite Hm. simpl. now apply Hmr.
  - intros given ->. rewrite Hn. simpl. now apply Hnr.
Qed.

Lemma discord_joke_passes_given_levels_witness :
  "tech" = str_or (Some "") "tech"
  /\ 11%Z = default 5%Z (Some 11%Z)
  /\ 5%Z = default 5%Z None
  /\ (forall given, Some 11%Z = Some given -> (1 <= 11 <= 11)%Z)
  /\ (forall given, @None Z = Some given -> (1 <= 5 <= 10)%Z)
  /\ Some "Alice" = Some "Alice".
Proof.
  apply (discord_joke_passes_given_levels
           {| DiscordBot.default_flavor := "tech"; DiscordBot.default_meanness := 5;
              DiscordBot.default_nerdiness := 5 |}
           (Some "") (Some 11%Z) None (Some "bob") (Some "Alice")).
  - discriminate.
  - reflexivity.
Defined.

End BotFacts.
